(** * EMR appointment service: a shallow embedding of [appointmentService]

    The development follows [src/EMR_Frontend_Assignment.jsx]:
    the in-memory array [mockAppointments], the four service functions
    [getAppointments], [createAppointment], [updateAppointmentStatus],
    [deleteAppointment], and the tab filter [getFilteredAppointments] of the
    view.  The service mutates one shared array and signals failure with
    [throw new Error(...)]; both are modelled by a state-and-exception monad
    over the array, so that what a failed call leaves behind is visible.

    Conventions of the embedding:
    - a JavaScript number is an integer or [NaN] (fractions are outside the
      model);
    - strings are byte strings, compared by code unit as JavaScript's [<]
      does on ASCII text;
    - the two places where the code reads the clock ([Date.now()] and
      [new Date()]) take the clock value as an argument;
    - the built-ins [Date] (string parsing), [String.prototype.localeCompare]
      and [String.prototype.toLowerCase] depend on the host's time zone,
      locale and character tables: they are parameters of the engine, with
      a reference instance given for concrete runs. *)

From Stdlib Require Import ZArith String Ascii List Lia.
From Stdlib Require Import Sorting.Sorted Structures.OrderedTypeEx.
From stdpp Require Import base list strings pretty.

Local Open Scope string_scope.
Local Open Scope Z_scope.

(** ** JavaScript values used by the service *)

Module JS.

(** Numbers: integers and [NaN]. *)
Inductive number : Type :=
| Num (z : Z)
| NaN.

Definition add (a b : number) : number :=
  match a, b with
  | Num x, Num y => Num (x + y)
  | _, _ => NaN
  end.

Definition mul (a b : number) : number :=
  match a, b with
  | Num x, Num y => Num (x * y)
  | _, _ => NaN
  end.

(** [a < b] and [a > b]: false as soon as one side is [NaN]. *)
Definition lt (a b : number) : bool :=
  match a, b with
  | Num x, Num y => x <? y
  | _, _ => false
  end.

Definition gt (a b : number) : bool := lt b a.

(** What a property read such as [payload[field]] can give. *)
Inductive value : Type :=
| VUndefined
| VString (s : string)
| VNumber (n : number).

(** ToBoolean: [undefined], the empty string, [0] and [NaN] are falsy. *)
Definition truthy (v : value) : bool :=
  match v with
  | VUndefined => false
  | VString s => negb (String.eqb s "")
  | VNumber (Num z) => negb (z =? 0)
  | VNumber NaN => false
  end.

Definition of_string (o : option string) : value :=
  match o with Some s => VString s | None => VUndefined end.

Definition of_number (o : option number) : value :=
  match o with Some n => VNumber n | None => VUndefined end.

(** ToNumber on a numeric property that may be absent. *)
Definition to_number (o : option number) : number :=
  match o with Some n => n | None => NaN end.

(** A property interpolated in a template literal. *)
Definition interpolate (o : option string) : string :=
  match o with Some s => s | None => "undefined" end.

(** [s === o] for a string [s] and a property [o] that may be absent. *)
Definition strict_eq (s : string) (o : option string) : bool :=
  match o with Some t => String.eqb s t | None => false end.

(** [new Date(ms)]: the time value, clipped to the range of [Date]
    (an out-of-range or [NaN] argument gives an invalid date, whose time
    value is [NaN]). *)
Definition time_clip (n : number) : number :=
  match n with
  | Num z => if Z.abs z <=? 8640000000000000 then Num z else NaN
  | NaN => NaN
  end.

(** [s < t] and [s >= t] on strings: code-unit order. *)
Definition str_lt (s t : string) : bool := String.ltb s t.
Definition str_ge (s t : string) : bool := negb (String.ltb s t).

(** [hay.includes(needle)]. *)
Fixpoint includes (hay needle : string) : bool :=
  String.prefix needle hay ||
  match hay with
  | EmptyString => false
  | String _ rest => includes rest needle
  end.

(** [Array.prototype.sort(cmp)].  The comparator's result is kept as its
    sign.  The standard requires a stable sort; on a consistent comparator
    every stable sort returns the same array, here the one of insertion
    sort. *)
Section Sort.

Context {A : Type} (cmp : A -> A -> comparison).

Fixpoint insert_sorted (x : A) (l : list A) : list A :=
  match l with
  | [] => [x]
  | y :: rest =>
      match cmp x y with
      | Gt => y :: insert_sorted x rest
      | _ => x :: y :: rest
      end
  end.

Definition sort (l : list A) : list A := foldr insert_sorted [] l.

End Sort.

End JS.

(** ** Data model *)

(** An appointment as stored in [mockAppointments]. *)
Record Appointment : Type := mkAppointment {
  id : string;
  patientName : string;
  date : string;
  time : string;
  duration : JS.number;
  doctorName : string;
  status : string;
  mode : string
}.

Definition set_status (apt : Appointment) (newStatus : string) : Appointment :=
  {| id := id apt; patientName := patientName apt; date := date apt;
     time := time apt; duration := duration apt; doctorName := doctorName apt;
     status := newStatus; mode := mode apt |}.

(** The argument of [createAppointment]: any of its properties may be
    absent.  [p_id] is there because the object spread copies every
    property of the payload into the new record. *)
Record Payload : Type := mkPayload {
  p_id : option string;
  p_patientName : option string;
  p_date : option string;
  p_time : option string;
  p_duration : option JS.number;
  p_doctorName : option string;
  p_mode : option string;
  p_status : option string
}.

(** [payload[field]] *)
Definition payload_get (payload : Payload) (field : string) : JS.value :=
  if String.eqb field "id" then JS.of_string (p_id payload)
  else if String.eqb field "patientName" then JS.of_string (p_patientName payload)
  else if String.eqb field "date" then JS.of_string (p_date payload)
  else if String.eqb field "time" then JS.of_string (p_time payload)
  else if String.eqb field "duration" then JS.of_number (p_duration payload)
  else if String.eqb field "doctorName" then JS.of_string (p_doctorName payload)
  else if String.eqb field "mode" then JS.of_string (p_mode payload)
  else if String.eqb field "status" then JS.of_string (p_status payload)
  else JS.VUndefined.

(** The argument of [getAppointments]. *)
Record Filters : Type := mkFilters {
  f_date : option string;
  f_status : option string;
  f_doctorName : option string
}.

Definition no_filters : Filters :=
  {| f_date := None; f_status := None; f_doctorName := None |}.

(** ** The store and the monad of the service *)

Abbreviation Store := (list Appointment) (only parsing).

(** [new Error(message)] *)
Inductive Error : Type :=
| MkError (message : string).

Definition message (e : Error) : string :=
  match e with MkError m => m end.

(** A call runs on the shared array and ends by returning or by throwing;
    in both cases the array it leaves is part of the outcome. *)
Definition M (A : Type) : Type := Store -> (Error + A) * Store.

Definition ret {A} (a : A) : M A := fun s => (inr a, s).

Definition throw {A} (e : Error) : M A := fun s => (inl e, s).

Definition bind {A B} (c : M A) (k : A -> M B) : M B :=
  fun s =>
    match c s with
    | (inl e, s') => (inl e, s')
    | (inr a, s') => k a s'
    end.

Definition get_store : M Store := fun s => (inr s, s).

Definition put_store (s' : Store) : M unit := fun _ => (inr tt, s').

Notation "x <- c ;; k" := (bind c (fun x => k))
  (at level 100, c at next level, right associativity).
Notation "c ;;; k" := (bind c (fun _ => k))
  (at level 100, k at level 200, right associativity).

(** ** The service *)

Section Service.

(** [new Date(str).getTime()]: the time value in milliseconds of a string of
    the form [<date>T<time>], read in the host's local time zone; [NaN] when
    the string does not parse. *)
Variable Date_parse : string -> JS.number.

(** [s.localeCompare(t)], as the sign of its result. *)
Variable localeCompare : string -> string -> comparison.

(** [s.toLowerCase()] *)
Variable toLowerCase : string -> string.

Definition truthy_filter (o : option string) : bool :=
  JS.truthy (JS.of_string o).

(** The comparator given to [sort] in [getAppointments]. *)
Definition by_date_time (a b : Appointment) : comparison :=
  if String.eqb (date a) (date b)
  then localeCompare (time a) (time b)
  else localeCompare (date a) (date b).

Definition filter_date (filters : Filters) (appointments : list Appointment)
  : list Appointment :=
  if truthy_filter (f_date filters)
  then List.filter (fun apt => JS.strict_eq (date apt) (f_date filters)) appointments
  else appointments.

Definition filter_status (filters : Filters) (appointments : list Appointment)
  : list Appointment :=
  if truthy_filter (f_status filters)
  then List.filter (fun apt => JS.strict_eq (status apt) (f_status filters)) appointments
  else appointments.

Definition filter_doctor (filters : Filters) (appointments : list Appointment)
  : list Appointment :=
  if truthy_filter (f_doctorName filters)
  then List.filter
         (fun apt => JS.includes (toLowerCase (doctorName apt))
                       (toLowerCase (JS.interpolate (f_doctorName filters))))
         appointments
  else appointments.

(** [getAppointments(filters)]: works on a copy of the array. *)
Definition getAppointments (filters : Filters) : M (list Appointment) :=
  s <- get_store ;;
  let appointments := s in
  let appointments := filter_date filters appointments in
  let appointments := filter_status filters appointments in
  let appointments := filter_doctor filters appointments in
  ret (JS.sort by_date_time appointments).

Definition required : list string :=
  ["patientName"; "date"; "time"; "duration"; "doctorName"; "mode"].

(** The loop over [required]. *)
Fixpoint check_required (fields : list string) (payload : Payload) : M unit :=
  match fields with
  | [] => ret tt
  | field :: rest =>
      if negb (JS.truthy (payload_get payload field))
      then throw (MkError ("Missing required field: " +:+ field))
      else check_required rest payload
  end.

(** The predicate of the filter that builds [conflicts]. *)
Definition same_slot_candidate (payload : Payload) (apt : Appointment) : bool :=
  JS.strict_eq (doctorName apt) (p_doctorName payload) &&
  JS.strict_eq (date apt) (p_date payload) &&
  negb (String.eqb (status apt) "Cancelled") &&
  negb (String.eqb (status apt) "Completed").

Definition existingStart (apt : Appointment) : JS.number :=
  JS.time_clip (Date_parse (date apt +:+ "T" +:+ time apt)).

Definition existingEnd (apt : Appointment) : JS.number :=
  JS.time_clip (JS.add (existingStart apt) (JS.mul (duration apt) (JS.Num 60000))).

Definition newStart (payload : Payload) : JS.number :=
  JS.time_clip
    (Date_parse (JS.interpolate (p_date payload) +:+ "T" +:+
                 JS.interpolate (p_time payload))).

Definition newEnd (payload : Payload) : JS.number :=
  JS.time_clip
    (JS.add (newStart payload)
            (JS.mul (JS.to_number (p_duration payload)) (JS.Num 60000))).

(** The test of the loop over [conflicts]. *)
Definition clashes (payload : Payload) (apt : Appointment) : bool :=
  JS.lt (newStart payload) (existingEnd apt) &&
  JS.gt (newEnd payload) (existingStart apt).

(** The loop over [conflicts]. *)
Fixpoint check_conflicts (conflicts : list Appointment) (payload : Payload)
  : M unit :=
  match conflicts with
  | [] => ret tt
  | apt :: rest =>
      if clashes payload apt
      then throw (MkError ("Time conflict with appointment at " +:+ time apt))
      else check_conflicts rest payload
  end.

(** [payload.status || 'Scheduled'] *)
Definition status_or_default (payload : Payload) : string :=
  if JS.truthy (JS.of_string (p_status payload))
  then JS.interpolate (p_status payload)
  else "Scheduled".

(** The record literal [{ id: `apt-${Date.now()}`, ...payload, status: ... }].
    It is built only after the loop over [required] has found the six
    required properties present, so the defaults taken for an absent
    property are never stored (lemma [createAppointment_fields]). *)
Definition newApt (now : Z) (payload : Payload) : Appointment :=
  {| id := match p_id payload with
           | Some i => i
           | None => "apt-" +:+ pretty now
           end;
     patientName := default "" (p_patientName payload);
     date := default "" (p_date payload);
     time := default "" (p_time payload);
     duration := JS.to_number (p_duration payload);
     doctorName := default "" (p_doctorName payload);
     status := status_or_default payload;
     mode := default "" (p_mode payload) |}.

(** [createAppointment(payload)], with [now] the value of [Date.now()]. *)
Definition createAppointment (now : Z) (payload : Payload) : M Appointment :=
  check_required required payload ;;;
  s <- get_store ;;
  let conflicts := List.filter (same_slot_candidate payload) s in
  check_conflicts conflicts payload ;;;
  let apt := newApt now payload in
  s <- get_store ;;
  put_store (s ++ [apt])%list ;;;
  ret apt.

(** [updateAppointmentStatus(id, newStatus)].  [find] gives the first
    record with that id, and the assignment writes into that very object of
    the array. *)
Definition updateAppointmentStatus (id0 : string) (newStatus : string)
  : M Appointment :=
  s <- get_store ;;
  match list_find (fun a => id a = id0) s with
  | None => throw (MkError "Appointment not found")
  | Some (i, apt) =>
      let apt' := set_status apt newStatus in
      put_store (<[i := apt']> s) ;;;
      ret apt'
  end.

(** [deleteAppointment(id)] *)
Definition deleteAppointment (id0 : string) : M bool :=
  s <- get_store ;;
  match list_find (fun a => id a = id0) s with
  | None => ret false
  | Some (index, _) =>
      put_store (delete index s) ;;;
      ret true
  end.

(** [getFilteredAppointments()], with [today] the date string read from the
    clock and [appointments] the list held by the view. *)
Definition getFilteredAppointments (selectedTab today : string)
    (appointments : list Appointment) : list Appointment :=
  if String.eqb selectedTab "today" then
    List.filter (fun apt => String.eqb (date apt) today) appointments
  else if String.eqb selectedTab "upcoming" then
    List.filter
      (fun apt => JS.str_ge (date apt) today &&
                  existsb (String.eqb (status apt))
                          ["Scheduled"; "Upcoming"; "Confirmed"])
      appointments
  else if String.eqb selectedTab "past" then
    List.filter
      (fun apt => JS.str_lt (date apt) today ||
                  String.eqb (status apt) "Completed")
      appointments
  else appointments.

(** The query of the view: the list fetched with [filters], refined by the
    selected tab. *)
Definition Query (filters : Filters) (selectedTab today : string)
  : M (list Appointment) :=
  appointments <- getAppointments filters ;;
  ret (getFilteredAppointments selectedTab today appointments).

End Service.

(** ** A reference host

    An instance of the host-dependent built-ins, for concrete runs:
    dates of the form [YYYY-MM-DDTHH:MM] read in a zone without offset,
    strings compared by code unit (what every collation gives on strings of
    digits laid out alike), and lower-casing of ASCII text. *)

Module Host.

Definition digit (c : ascii) : option Z :=
  let n := Z.of_nat (nat_of_ascii c) in
  if (48 <=? n) && (n <=? 57) then Some (n - 48) else None.

Fixpoint digits (s : string) (acc : Z) : option Z :=
  match s with
  | EmptyString => Some acc
  | String c rest =>
      match digit c with
      | Some d => digits rest (acc * 10 + d)
      | None => None
      end
  end.

(** The number written by the [n] decimal digits at offset [i] of [s]. *)
Definition field (i n : nat) (s : string) : option Z :=
  let part := String.substring i n s in
  if (String.length part =? n)%nat then digits part 0 else None.

Definition is_leap (y : Z) : bool :=
  (y mod 4 =? 0) && (negb (y mod 100 =? 0) || (y mod 400 =? 0)).

Definition days_in_month (y m : Z) : Z :=
  if m =? 2 then (if is_leap y then 29 else 28)
  else if (m =? 4) || (m =? 6) || (m =? 9) || (m =? 11) then 30
  else 31.

(** Days from 1970-01-01 to the civil date [y]-[m]-[d]. *)
Definition days_from_civil (y m d : Z) : Z :=
  let y' := if m <=? 2 then y - 1 else y in
  let era := y' / 400 in
  let yoe := y' - era * 400 in
  let mp := (m + 9) mod 12 in
  let doy := (153 * mp + 2) / 5 + d - 1 in
  let doe := yoe * 365 + yoe / 4 - yoe / 100 + doy in
  era * 146097 + doe - 719468.

Definition separator (i : nat) (c : ascii) (s : string) : bool :=
  match String.get i s with
  | Some c' => Ascii.eqb c c'
  | None => false
  end.

Definition Date_parse (s : string) : JS.number :=
  if negb ((String.length s =? 16)%nat && separator 4 "-" s && separator 7 "-" s
           && separator 10 "T" s && separator 13 ":" s)
  then JS.NaN
  else
    match field 0 4 s, field 5 2 s, field 8 2 s, field 11 2 s, field 14 2 s with
    | Some y, Some m, Some d, Some hh, Some mm =>
        if (1 <=? m) && (m <=? 12) && (1 <=? d) && (d <=? days_in_month y m)
           && (hh <=? 23) && (mm <=? 59)
        then JS.Num (((days_from_civil y m d * 24 + hh) * 60 + mm) * 60000)
        else JS.NaN
    | _, _, _, _, _ => JS.NaN
    end.

Definition localeCompare (s t : string) : comparison := String.compare s t.

(** Lower-casing of ASCII text: the letters A to Z are lowered, every other
    byte is kept. *)
Definition lower_ascii (c : ascii) : ascii :=
  let n := nat_of_ascii c in
  if ((65 <=? n) && (n <=? 90))%nat then ascii_of_nat (n + 32) else c.

Fixpoint toLowerCase (s : string) : string :=
  match s with
  | EmptyString => EmptyString
  | String c rest => String (lower_ascii c) (toLowerCase rest)
  end.

End Host.

(** ** The initial content of [mockAppointments] *)

Definition mockAppointments : Store :=
  [ mkAppointment "apt-001" "John Smith" "2024-12-29" "09:00" (JS.Num 30)
      "Dr. Sarah Johnson" "Confirmed" "In-person";
    mkAppointment "apt-002" "Emma Davis" "2024-12-29" "10:00" (JS.Num 45)
      "Dr. Michael Chen" "Scheduled" "Video";
    mkAppointment "apt-003" "Robert Wilson" "2024-12-29" "11:30" (JS.Num 30)
      "Dr. Sarah Johnson" "Upcoming" "In-person";
    mkAppointment "apt-004" "Maria Garcia" "2024-12-30" "09:30" (JS.Num 60)
      "Dr. Emily Brown" "Confirmed" "Phone";
    mkAppointment "apt-005" "James Anderson" "2024-12-30" "14:00" (JS.Num 30)
      "Dr. Michael Chen" "Scheduled" "Video";
    mkAppointment "apt-006" "Lisa Martinez" "2024-12-28" "10:00" (JS.Num 45)
      "Dr. Sarah Johnson" "Completed" "In-person";
    mkAppointment "apt-007" "David Lee" "2024-12-28" "15:30" (JS.Num 30)
      "Dr. Emily Brown" "Completed" "Video";
    mkAppointment "apt-008" "Sarah Taylor" "2024-12-27" "11:00" (JS.Num 30)
      "Dr. Michael Chen" "Cancelled" "In-person";
    mkAppointment "apt-009" "Kevin White" "2025-01-02" "09:00" (JS.Num 45)
      "Dr. Sarah Johnson" "Upcoming" "In-person";
    mkAppointment "apt-010" "Jennifer Brown" "2025-01-02" "13:00" (JS.Num 30)
      "Dr. Emily Brown" "Scheduled" "Phone" ].

(** A payload as the creation form sends it: the six required properties,
    no [id] and no [status]. *)
Definition form_payload (patient d t : string) (minutes : Z)
    (doctor m : string) : Payload :=
  {| p_id := None; p_patientName := Some patient; p_date := Some d;
     p_time := Some t; p_duration := Some (JS.Num minutes);
     p_doctorName := Some doctor; p_mode := Some m; p_status := None |}.

(** Requests used in the concrete runs below. *)
Definition late_evening : Payload :=
  form_payload "Noor Khan" "2024-12-29" "23:30" 60 "Dr. Sarah Johnson" "Phone".

Definition after_midnight : Payload :=
  form_payload "Omar Diaz" "2024-12-30" "00:00" 30 "Dr. Sarah Johnson" "Phone".

Definition half_past_nine : Payload :=
  form_payload "Ann Lee" "2024-12-29" "09:30" 30 "Dr. Sarah Johnson" "Video".

Definition quarter_past_nine : Payload :=
  form_payload "Ann Lee" "2024-12-29" "09:15" 30 "Dr. Sarah Johnson" "Video".

(** A request for 09:15 that lasts 1e15 minutes. *)
Definition endless : Payload :=
  form_payload "Ann Lee" "2024-12-29" "09:15" 1000000000000000
    "Dr. Sarah Johnson" "Video".

Definition nine_sharp : Payload :=
  form_payload "Ben Ortiz" "2024-12-29" "09:00" 30 "Dr. Sarah Johnson" "Video".

(** A reading of the clock, in milliseconds. *)
Definition clock : Z := 1735460000000.

(** ** Sequences of calls *)

(** The three mutating calls of the service. *)
Inductive Op : Type :=
| Create (now : Z) (payload : Payload)
| UpdateStatus (id0 newStatus : string)
| Delete (id0 : string).

(** One call that does not throw, and the array it leaves. *)
Definition run_op (Date_parse : string -> JS.number) (op : Op) (s : Store)
  : option Store :=
  match op with
  | Create now payload =>
      match createAppointment Date_parse now payload s with
      | (inr _, s') => Some s'
      | (inl _, _) => None
      end
  | UpdateStatus id0 newStatus =>
      match updateAppointmentStatus id0 newStatus s with
      | (inr _, s') => Some s'
      | (inl _, _) => None
      end
  | Delete id0 =>
      match deleteAppointment id0 s with
      | (inr _, s') => Some s'
      | (inl _, _) => None
      end
  end.

(** A sequence of calls, each of which succeeds. *)
Fixpoint run (Date_parse : string -> JS.number) (ops : list Op) (s : Store)
  : option Store :=
  match ops with
  | [] => Some s
  | op :: rest =>
      match run_op Date_parse op s with
      | Some s' => run Date_parse rest s'
      | None => None
      end
  end.

(** ** The statements of the specification, in its own words *)

Module Spec.

(** The active set: the statuses that occupy the doctor's schedule. *)
Definition active (st : string) : bool :=
  String.eqb st "Scheduled" || String.eqb st "Upcoming" ||
  String.eqb st "Confirmed".

(** The transition table of the status state machine. *)
Definition transition_allowed (from to : string) : bool :=
  if String.eqb from "Scheduled" || String.eqb from "Upcoming"
  then String.eqb to "Confirmed" || String.eqb to "Cancelled"
  else if String.eqb from "Confirmed"
  then String.eqb to "Completed" || String.eqb to "Cancelled"
  else false.

(** The interval [[date+time, date+time+duration)] of a booking, in
    milliseconds: it starts at the time value of [<date>T<time>] and lasts
    [duration] minutes.  There is none when the date and time do not parse
    or the duration is not a number. *)
Definition interval (Date_parse : string -> JS.number) (d t : string)
    (minutes : JS.number) : option (Z * Z) :=
  match Date_parse (d +:+ "T" +:+ t), minutes with
  | JS.Num start, JS.Num m => Some (start, start + m * 60000)
  | _, _ => None
  end.

Definition appointment_interval (Date_parse : string -> JS.number)
    (apt : Appointment) : option (Z * Z) :=
  interval Date_parse (date apt) (time apt) (duration apt).

Definition request_interval (Date_parse : string -> JS.number)
    (payload : Payload) : option (Z * Z) :=
  match p_date payload, p_time payload, p_duration payload with
  | Some d, Some t, Some minutes => interval Date_parse d t minutes
  | _, _, _ => None
  end.

(** Half-open intervals [[s1,e1)] and [[s2,e2)] overlap iff
    [s1 < e2] and [s2 < e1]. *)
Definition overlaps (i1 i2 : option (Z * Z)) : bool :=
  match i1, i2 with
  | Some (s1, e1), Some (s2, e2) => (s1 <? e2) && (s2 <? e1)
  | _, _ => false
  end.

(** The interval lies in the range of the time values of [Date]:
    8.64e15 milliseconds either side of the epoch. *)
Definition within_range (i : option (Z * Z)) : bool :=
  match i with
  | Some (start, finish) =>
      (Z.abs start <=? 8640000000000000) && (Z.abs finish <=? 8640000000000000)
  | None => true
  end.

(** Two records of one doctor, both active, whose intervals
    [[date+time, date+time+duration)] overlap. *)
Definition double_booked (Date_parse : string -> JS.number)
    (a b : Appointment) : bool :=
  String.eqb (doctorName a) (doctorName b) &&
  active (status a) && active (status b) &&
  overlaps (appointment_interval Date_parse a)
           (appointment_interval Date_parse b).

(** Invariant I3: no two records of the store are double booked. *)
Definition no_double_booking (Date_parse : string -> JS.number) (s : Store)
  : Prop :=
  forall i j a b, i <> j -> s !! i = Some a -> s !! j = Some b ->
    double_booked Date_parse a b = false.

(** The same, for records stored under one date. *)
Definition no_double_booking_same_date (Date_parse : string -> JS.number)
    (s : Store) : Prop :=
  forall i j a b, i <> j -> s !! i = Some a -> s !! j = Some b ->
    date a = date b -> double_booked Date_parse a b = false.

(** A status update that brings a record back from a status outside the
    active set into the active set. *)
Definition reactivates (op : Op) (s : Store) : bool :=
  match op with
  | UpdateStatus id0 newStatus =>
      match list_find (fun a => id a = id0) s with
      | Some (_, apt) => active newStatus && negb (active (status apt))
      | None => false
      end
  | _ => false
  end.

(** No call of the sequence reactivates a record. *)
Fixpoint never_reactivates (Date_parse : string -> JS.number)
    (ops : list Op) (s : Store) : bool :=
  match ops with
  | [] => true
  | op :: rest =>
      negb (reactivates op s) &&
      match run_op Date_parse op s with
      | Some s' => never_reactivates Date_parse rest s'
      | None => true
      end
  end.

(** Every creation of a sequence asks for an interval within the range of
    [Date]. *)
Definition requests_within_range (Date_parse : string -> JS.number)
    (ops : list Op) : bool :=
  forallb (fun op => match op with
                     | Create _ payload =>
                         within_range (request_interval Date_parse payload)
                     | _ => true
                     end) ops.

(** An existing record that stands in the way of a request: same doctor,
    same date string, status neither cancelled nor completed, and an
    interval [[date+time, date+time+duration)] that overlaps the
    request's. *)
Definition blocks (Date_parse : string -> JS.number) (payload : Payload)
    (apt : Appointment) : Prop :=
  Some (doctorName apt) = p_doctorName payload /\
  Some (date apt) = p_date payload /\
  status apt <> "Cancelled" /\ status apt <> "Completed" /\
  overlaps (request_interval Date_parse payload)
           (appointment_interval Date_parse apt) = true.

(** The first of the required fields, in the order patientName, date, time,
    duration, doctorName, mode, that is absent or falsy. *)
Definition first_missing (payload : Payload) : option string :=
  if negb (JS.truthy (JS.of_string (p_patientName payload))) then Some "patientName"
  else if negb (JS.truthy (JS.of_string (p_date payload))) then Some "date"
  else if negb (JS.truthy (JS.of_string (p_time payload))) then Some "time"
  else if negb (JS.truthy (JS.of_number (p_duration payload))) then Some "duration"
  else if negb (JS.truthy (JS.of_string (p_doctorName payload))) then Some "doctorName"
  else if negb (JS.truthy (JS.of_string (p_mode payload))) then Some "mode"
  else None.

(** The well-formedness the specification asks of a request. *)
Definition mode_ok (m : string) : bool :=
  String.eqb m "In-person" || String.eqb m "Video" || String.eqb m "Phone".

Definition duration_ok (n : JS.number) : bool :=
  match n with JS.Num z => 0 <? z | JS.NaN => false end.

(** The tabs of the query. *)
Inductive Tab : Type := Today | Upcoming | Past | All.

Definition tab_name (tab : Tab) : string :=
  match tab with
  | Today => "today"
  | Upcoming => "upcoming"
  | Past => "past"
  | All => "all"
  end.

(** Lexicographic order on strings. *)
Definition str_lt (s t : string) : Prop := String.compare s t = Lt.
Definition str_le (s t : string) : Prop := String.compare s t <> Gt.

(** What each tab keeps. *)
Definition tab_keeps (tab : Tab) (referenceDate : string) (apt : Appointment)
  : Prop :=
  match tab with
  | Today => date apt = referenceDate
  | Upcoming => str_le referenceDate (date apt) /\
                (status apt = "Scheduled" \/ status apt = "Upcoming" \/
                 status apt = "Confirmed")
  | Past => str_lt (date apt) referenceDate \/ status apt = "Completed"
  | All => True
  end.

(** Ascending by date, then by time within equal dates. *)
Definition chrono_le (a b : Appointment) : Prop :=
  str_lt (date a) (date b) \/ (date a = date b /\ str_le (time a) (time b)).

(** ISO layout: [DDDD-DD-DD] for a date, [DD:DD] for a time. *)
Definition is_digit (c : ascii) : bool :=
  let n := nat_of_ascii c in ((48 <=? n) && (n <=? 57))%nat.

Definition iso_date (s : string) : bool :=
  match s with
  | String y1 (String y2 (String y3 (String y4 (String d1 (String m1
      (String m2 (String d2 (String a1 (String a2 EmptyString))))))))) =>
      is_digit y1 && is_digit y2 && is_digit y3 && is_digit y4 &&
      Ascii.eqb d1 "-" && is_digit m1 && is_digit m2 &&
      Ascii.eqb d2 "-" && is_digit a1 && is_digit a2
  | _ => false
  end.

Definition iso_time (s : string) : bool :=
  match s with
  | String h1 (String h2 (String c (String m1 (String m2 EmptyString)))) =>
      is_digit h1 && is_digit h2 && Ascii.eqb c ":" &&
      is_digit m1 && is_digit m2
  | _ => false
  end.

Definition iso_appointment (apt : Appointment) : bool :=
  iso_date (date apt) && iso_time (time apt).

(** A [localeCompare] that orders ISO dates and ISO times as their code
    units do. *)
Definition collates_iso (localeCompare : string -> string -> comparison)
  : Prop :=
  (forall s t, iso_date s = true -> iso_date t = true ->
     localeCompare s t = String.compare s t) /\
  (forall s t, iso_time s = true -> iso_time t = true ->
     localeCompare s t = String.compare s t).

End Spec.

(** What a status update may change: the record at one position of the
    store, and of that record the status alone. *)
Definition only_status_written (s : Store) (id0 newStatus : string)
    (apt' : Appointment) (s' : Store) : Prop :=
  exists i apt,
    s !! i = Some apt /\ id apt = id0 /\ s' !! i = Some apt' /\
    status apt' = newStatus /\
    id apt' = id apt /\ patientName apt' = patientName apt /\
    doctorName apt' = doctorName apt /\ date apt' = date apt /\
    time apt' = time apt /\ duration apt' = duration apt /\
    mode apt' = mode apt /\
    length s' = length s /\
    forall j, j <> i -> s' !! j = s !! j.

(** A relation holds of every two records at different positions: the
    executable check used on concrete stores. *)
Fixpoint pairwise (R : Appointment -> Appointment -> bool) (s : Store) : bool :=
  match s with
  | [] => true
  | a :: rest => forallb (R a) rest && pairwise R rest
  end.

Definition compatible (Date_parse : string -> JS.number) (a b : Appointment)
  : bool :=
  negb (Spec.double_booked Date_parse a b).

Definition compatible_same_date (Date_parse : string -> JS.number)
    (a b : Appointment) : bool :=
  negb (String.eqb (date a) (date b) && Spec.double_booked Date_parse a b).

(** Sequences of calls used in the concrete runs below. *)
Definition two_bookings_around_midnight : list Op :=
  [Create clock late_evening; Create (clock + 1) after_midnight].

Definition cancel_rebook_reactivate : list Op :=
  [UpdateStatus "apt-001" "Cancelled"; Create clock quarter_past_nine;
   UpdateStatus "apt-001" "Confirmed"].

Definition ordinary_day : list Op :=
  [Create clock half_past_nine; UpdateStatus "apt-001" "Completed";
   Delete "apt-002"; UpdateStatus "apt-003" "Confirmed";
   Create (clock + 1) nine_sharp].

(** ** The view

    [AppointmentManagementView] keeps its state in React hooks; a handler
    is modelled by the state it leaves once it has run, together with the
    array it leaves in the service. *)

(** [String(v)], as [parseInt] applies it to its argument. *)
Definition to_string (v : JS.value) : string :=
  match v with
  | JS.VUndefined => "undefined"
  | JS.VString s => s
  | JS.VNumber (JS.Num z) => pretty z
  | JS.VNumber JS.NaN => "NaN"
  end.

(** [s.padStart(targetLength, c)] for a one-character pad string. *)
Definition padStart (targetLength : nat) (c : ascii) (s : string) : string :=
  string_of_list_ascii (replicate (targetLength - String.length s) c) +:+ s.

(** The content of the creation form; [duration] is the number 30 until the
    field is edited, then the text of the field. *)
Record FormData : Type := mkFormData {
  fd_patientName : string;
  fd_date : string;
  fd_time : string;
  fd_duration : JS.value;
  fd_doctorName : string;
  fd_mode : string
}.

Definition initial_formData : FormData :=
  mkFormData "" "" "" (JS.VNumber (JS.Num 30)) "" "In-person".

Record View : Type := mkView {
  appointments : list Appointment;
  selectedDate : option string;
  selectedTab : string;
  showCreateModal : bool;
  loading : bool;
  error : option string;
  formData : FormData
}.

Definition initial_view : View :=
  mkView [] None "all" false false None initial_formData.

Definition setAppointments (data : list Appointment) (v : View) : View :=
  mkView data (selectedDate v) (selectedTab v) (showCreateModal v) (loading v)
         (error v) (formData v).

Definition setSelectedDate (d : option string) (v : View) : View :=
  mkView (appointments v) d (selectedTab v) (showCreateModal v) (loading v)
         (error v) (formData v).

Definition setSelectedTab (key : string) (v : View) : View :=
  mkView (appointments v) (selectedDate v) key (showCreateModal v) (loading v)
         (error v) (formData v).

Definition setShowCreateModal (b : bool) (v : View) : View :=
  mkView (appointments v) (selectedDate v) (selectedTab v) b (loading v)
         (error v) (formData v).

Definition setLoading (b : bool) (v : View) : View :=
  mkView (appointments v) (selectedDate v) (selectedTab v) (showCreateModal v) b
         (error v) (formData v).

Definition setError (e : option string) (v : View) : View :=
  mkView (appointments v) (selectedDate v) (selectedTab v) (showCreateModal v)
         (loading v) e (formData v).

Definition setFormData (fd : FormData) (v : View) : View :=
  mkView (appointments v) (selectedDate v) (selectedTab v) (showCreateModal v)
         (loading v) (error v) fd.

(** [selectedDate ? { date: selectedDate } : {}] *)
Definition selected_filters (v : View) : Filters :=
  if JS.truthy (JS.of_string (selectedDate v))
  then {| f_date := selectedDate v; f_status := None; f_doctorName := None |}
  else no_filters.

(** The status buttons of [AppointmentCard]: the second arguments of the
    [handleStatusUpdate] calls the card offers, in the order Confirm, Cancel,
    Complete. *)
Definition card_status_buttons (appointment : Appointment) : list string :=
  ((if String.eqb (status appointment) "Scheduled" then ["Confirmed"] else []) ++
   (if existsb (String.eqb (status appointment))
               ["Scheduled"; "Confirmed"; "Upcoming"]
    then ["Cancelled"] else []) ++
   (if String.eqb (status appointment) "Confirmed" then ["Completed"] else []))%list.

(** The array [days] of [CalendarWidget]: [firstDay] empty cells, then the
    days 1 to [daysInMonth]. *)
Definition calendar_days (firstDay daysInMonth : Z) : list (option Z) :=
  (replicate (Z.to_nat firstDay) None ++ (Some <$> seqZ 1 daysInMonth))%list.

(** The [dateStr] of a day cell. *)
Definition dateStr (currentYear currentMonth day : Z) : string :=
  pretty currentYear +:+ "-" +:+
  padStart 2 "0" (pretty (currentMonth + 1)) +:+ "-" +:+
  padStart 2 "0" (pretty day).

(** What the reference host gives for [new Date(y, m + 1, 0).getDate()] and
    [new Date(y, m, d).getDay()], with [m] counted from 0. *)
Definition host_daysInMonth (currentYear currentMonth : Z) : Z :=
  Host.days_in_month currentYear (currentMonth + 1).

Definition host_getDay (currentYear currentMonth day : Z) : Z :=
  (Host.days_from_civil currentYear (currentMonth + 1) day + 4) mod 7.

Section ViewHandlers.

Variable Date_parse : string -> JS.number.
Variable localeCompare : string -> string -> comparison.
Variable toLowerCase : string -> string.

(** [parseInt(str)] *)
Variable parseInt : string -> JS.number.

(** [fetchAppointments(filters)] *)
Definition fetchAppointments (filters : Filters) (v : View) (s : Store)
  : View * Store :=
  let v := setLoading true v in
  let v := setError None v in
  match getAppointments localeCompare toLowerCase filters s with
  | (inr data, s') => (setLoading false (setAppointments data v), s')
  | (inl err, s') => (setLoading false (setError (Some (message err)) v), s')
  end.

(** [handleDateClick(date)] *)
Definition handleDateClick (d : string) (v : View) (s : Store) : View * Store :=
  let v := setSelectedDate (Some d) v in
  fetchAppointments {| f_date := Some d; f_status := None; f_doctorName := None |}
                    v s.

(** The handler of the 'Clear date filter' button. *)
Definition clearDateFilter (v : View) (s : Store) : View * Store :=
  let v := setSelectedDate None v in
  fetchAppointments no_filters v s.

(** [handleStatusUpdate(id, newStatus)] *)
Definition handleStatusUpdate (id0 newStatus : string) (v : View) (s : Store)
  : View * Store :=
  match updateAppointmentStatus id0 newStatus s with
  | (inr _, s') => fetchAppointments (selected_filters v) v s'
  | (inl err, s') => (setError (Some (message err)) v, s')
  end.

(** The payload [{...formData, duration: parseInt(formData.duration)}]. *)
Definition form_to_payload (fd : FormData) : Payload :=
  {| p_id := None;
     p_patientName := Some (fd_patientName fd);
     p_date := Some (fd_date fd);
     p_time := Some (fd_time fd);
     p_duration := Some (parseInt (to_string (fd_duration fd)));
     p_doctorName := Some (fd_doctorName fd);
     p_mode := Some (fd_mode fd);
     p_status := None |}.

(** [handleCreateAppointment(e)], with [now] the clock read by the service. *)
Definition handleCreateAppointment (now : Z) (v : View) (s : Store)
  : View * Store :=
  let v := setError None v in
  match createAppointment Date_parse now (form_to_payload (formData v)) s with
  | (inr _, s') =>
      let v := setShowCreateModal false v in
      let v := setFormData initial_formData v in
      fetchAppointments (selected_filters v) v s'
  | (inl err, s') => (setError (Some (message err)) v, s')
  end.

(** [handleDeleteAppointment(id)], with [confirmed] the answer to
    [window.confirm]. *)
Definition handleDeleteAppointment (id0 : string) (confirmed : bool) (v : View)
    (s : Store) : View * Store :=
  if confirmed then
    match deleteAppointment id0 s with
    | (inr _, s') => fetchAppointments (selected_filters v) v s'
    | (inl err, s') => (setError (Some (message err)) v, s')
    end
  else (v, s).

(** The effect run when the component is mounted: [fetchAppointments()] on
    the initial state. *)
Definition mounted (s : Store) : View * Store :=
  fetchAppointments no_filters initial_view s.

(** What a user can do to the view. *)
Inductive Event : Type :=
| DateClick (d : string)
| ClearDate
| SelectTab (key : string)
| OpenModal
| CloseModal
| EditForm (fd : FormData)
| StatusClick (id0 newStatus : string)
| SubmitCreate (now : Z)
| DeleteClick (id0 : string) (confirmed : bool).

Definition handle (ev : Event) (v : View) (s : Store) : View * Store :=
  match ev with
  | DateClick d => handleDateClick d v s
  | ClearDate => clearDateFilter v s
  | SelectTab key => (setSelectedTab key v, s)
  | OpenModal => (setShowCreateModal true v, s)
  | CloseModal => (setShowCreateModal false v, s)
  | EditForm fd => (setFormData fd v, s)
  | StatusClick id0 newStatus => handleStatusUpdate id0 newStatus v s
  | SubmitCreate now => handleCreateAppointment now v s
  | DeleteClick id0 confirmed => handleDeleteAppointment id0 confirmed v s
  end.

Fixpoint handle_all (evs : list Event) (v : View) (s : Store) : View * Store :=
  match evs with
  | [] => (v, s)
  | ev :: rest => let '(v', s') := handle ev v s in handle_all rest v' s'
  end.

(** The list held by the view is the one the service returns for the
    selected date. *)
Definition in_sync (v : View) (s : Store) : Prop :=
  fst (getAppointments localeCompare toLowerCase (selected_filters v) s) =
  inr (appointments v).

End ViewHandlers.

(** Properties of stores used below. *)

(** Every stored record has its required fields: non-empty strings and a
    duration that is a non-zero integer. *)
Definition complete (apt : Appointment) : bool :=
  negb (String.eqb (patientName apt) "") && negb (String.eqb (date apt) "") &&
  negb (String.eqb (time apt) "") &&
  JS.truthy (JS.VNumber (duration apt)) &&
  negb (String.eqb (doctorName apt) "") && negb (String.eqb (mode apt) "").

(** The calls of a sequence that create a record read strictly increasing
    clock values, all at least [t], and their payloads carry no id. *)
Fixpoint clock_increases (t : Z) (ops : list Op) : bool :=
  match ops with
  | [] => true
  | Create now payload :: rest =>
      (t <=? now) && bool_decide (p_id payload = None) &&
      clock_increases (now + 1) rest
  | _ :: rest => clock_increases t rest
  end.

(** No stored id is one the service would generate at clock value [t] or
    later. *)
Definition minted_before (t : Z) (s : Store) : Prop :=
  forall apt n, In apt s -> t <= n -> id apt <> "apt-" +:+ pretty n.

(** The records a filter object selects: each filter that is present and
    not empty must hold, an absent or empty one is ignored. *)
Definition selected_by (toLowerCase : string -> string) (filters : Filters)
    (apt : Appointment) : Prop :=
  (forall d, f_date filters = Some d -> d <> "" -> date apt = d) /\
  (forall st, f_status filters = Some st -> st <> "" -> status apt = st) /\
  (forall n, f_doctorName filters = Some n -> n <> "" ->
     JS.includes (toLowerCase (doctorName apt)) (toLowerCase n) = true).

Definition selects (toLowerCase : string -> string) (filters : Filters)
    (apt : Appointment) : bool :=
  match f_date filters with
  | Some d => String.eqb d "" || String.eqb (date apt) d
  | None => true
  end &&
  match f_status filters with
  | Some st => String.eqb st "" || String.eqb (status apt) st
  | None => true
  end &&
  match f_doctorName filters with
  | Some n => String.eqb n "" ||
              JS.includes (toLowerCase (doctorName apt)) (toLowerCase n)
  | None => true
  end.


(** An executable check of [minted_before]: an id of the form [apt-<n>]
    with [n] a decimal numeral has [n] below [t]. *)
Definition minted_beforeb (t : Z) (apt : Appointment) : bool :=
  match id apt with
  | String "a" (String "p" (String "t" (String "-" numeral))) =>
      match Host.digits numeral 0 with
      | Some n => n <? t
      | None => true
      end
  | _ => true
  end.

(** A string of exactly [n] decimal digits. *)
Fixpoint all_digits (s : string) : bool :=
  match s with
  | EmptyString => true
  | String c rest => Spec.is_digit c && all_digits rest
  end.

Definition numeral (n : nat) (s : string) : bool :=
  (String.length s =? n)%nat && all_digits s.

(** * Properties *)

(** ** How the calls run *)

Section Runs.

Variable Date_parse : string -> JS.number.

Lemma strict_eq_true (s : string) (o : option string) :
  JS.strict_eq s o = true <-> Some s = o.
Proof.
  destruct o as [t|]; simpl.
  - rewrite String.eqb_eq. split; congruence.
  - split; discriminate.
Qed.

Lemma check_required_run (fields : list string) (payload : Payload) (s : Store) :
  check_required fields payload s =
  match List.find (fun f => negb (JS.truthy (payload_get payload f))) fields with
  | Some f => (inl (MkError ("Missing required field: " +:+ f)), s)
  | None => (inr tt, s)
  end.
Proof.
  induction fields as [|f rest IH]; simpl; [reflexivity|].
  destruct (negb (JS.truthy (payload_get payload f))); [reflexivity|exact IH].
Qed.

Lemma find_required (payload : Payload) :
  List.find (fun f => negb (JS.truthy (payload_get payload f))) required =
  Spec.first_missing payload.
Proof. reflexivity. Qed.

Lemma check_conflicts_run (conflicts : list Appointment) (payload : Payload)
    (s : Store) :
  check_conflicts Date_parse conflicts payload s =
  match List.find (clashes Date_parse payload) conflicts with
  | Some apt =>
      (inl (MkError ("Time conflict with appointment at " +:+ time apt)), s)
  | None => (inr tt, s)
  end.
Proof.
  induction conflicts as [|apt rest IH]; simpl; [reflexivity|].
  destruct (clashes Date_parse payload apt); [reflexivity|exact IH].
Qed.

(** The three ways [createAppointment] can end. *)
Lemma createAppointment_run (now : Z) (payload : Payload) (s : Store) :
  createAppointment Date_parse now payload s =
  match Spec.first_missing payload with
  | Some f => (inl (MkError ("Missing required field: " +:+ f)), s)
  | None =>
      match List.find (clashes Date_parse payload)
                      (List.filter (same_slot_candidate payload) s) with
      | Some apt =>
          (inl (MkError ("Time conflict with appointment at " +:+ time apt)), s)
      | None => (inr (newApt now payload), (s ++ [newApt now payload])%list)
      end
  end.
Proof.
  unfold createAppointment, bind.
  rewrite check_required_run, find_required.
  destruct (Spec.first_missing payload); [reflexivity|].
  unfold get_store at 1. rewrite check_conflicts_run.
  destruct (List.find _ _); reflexivity.
Qed.

(** Once the required fields are there, the new record carries them. *)
Lemma createAppointment_fields (now : Z) (payload : Payload) :
  Spec.first_missing payload = None ->
  p_patientName payload = Some (patientName (newApt now payload)) /\
  p_date payload = Some (date (newApt now payload)) /\
  p_time payload = Some (time (newApt now payload)) /\
  p_duration payload = Some (duration (newApt now payload)) /\
  p_doctorName payload = Some (doctorName (newApt now payload)) /\
  p_mode payload = Some (mode (newApt now payload)).
Proof.
  unfold Spec.first_missing.
  destruct payload as [pid pn pd pt pdur pdoc pm pst]; simpl.
  destruct pn, pd, pt, pdur, pdoc, pm; simpl;
    repeat match goal with |- context [if ?b then _ else _] => destruct b end;
    try discriminate; intros _; repeat split; reflexivity.
Qed.

Lemma updateAppointmentStatus_run (id0 newStatus : string) (s : Store) :
  updateAppointmentStatus id0 newStatus s =
  match list_find (fun a => id a = id0) s with
  | None => (inl (MkError "Appointment not found"), s)
  | Some (i, apt) =>
      (inr (set_status apt newStatus), <[i := set_status apt newStatus]> s)
  end.
Proof.
  unfold updateAppointmentStatus, bind, get_store.
  destruct (list_find _ s) as [[i apt]|]; reflexivity.
Qed.

Lemma deleteAppointment_run (id0 : string) (s : Store) :
  deleteAppointment id0 s =
  match list_find (fun a => id a = id0) s with
  | None => (inr false, s)
  | Some (index, _) => (inr true, delete index s)
  end.
Proof.
  unfold deleteAppointment, bind, get_store.
  destruct (list_find _ s) as [[i apt]|]; reflexivity.
Qed.

Lemma required_fields (payload : Payload) :
  Spec.first_missing payload = None ->
  exists d t minutes,
    p_date payload = Some d /\ p_time payload = Some t /\
    p_duration payload = Some minutes.
Proof.
  intros Hvalid.
  destruct (createAppointment_fields 0 payload Hvalid)
    as (_ & Hd & Ht & Hdur & _ & _).
  do 3 eexists. repeat split; eassumption.
Qed.

Lemma time_clip_within (z : Z) :
  (Z.abs z <=? 8640000000000000) = true -> JS.time_clip (JS.Num z) = JS.Num z.
Proof. intros Hz. simpl. rewrite Hz. reflexivity. Qed.

Lemma lt_NaN_r (n : JS.number) : JS.lt n JS.NaN = false.
Proof. destruct n; reflexivity. Qed.

(** Within the range of [Date], the start and end the code computes for a
    record are those of its interval. *)
Lemma existing_interval (apt : Appointment) :
  Spec.within_range (Spec.appointment_interval Date_parse apt) = true ->
  match Spec.appointment_interval Date_parse apt with
  | Some (start, finish) =>
      existingStart Date_parse apt = JS.Num start /\
      existingEnd Date_parse apt = JS.Num finish
  | None => existingEnd Date_parse apt = JS.NaN
  end.
Proof.
  unfold Spec.appointment_interval, Spec.interval, Spec.within_range,
    existingEnd, existingStart.
  destruct (Date_parse _) as [start|]; [|reflexivity].
  destruct (duration apt) as [m|].
  - rewrite andb_true_iff. intros [Hs He].
    rewrite (time_clip_within start Hs). cbn [JS.add JS.mul].
    rewrite time_clip_within by exact He. auto.
  - intros _. destruct (JS.time_clip (JS.Num start)); reflexivity.
Qed.

Lemma new_interval (payload : Payload) :
  Spec.first_missing payload = None ->
  Spec.within_range (Spec.request_interval Date_parse payload) = true ->
  match Spec.request_interval Date_parse payload with
  | Some (start, finish) =>
      newStart Date_parse payload = JS.Num start /\
      newEnd Date_parse payload = JS.Num finish
  | None =>
      newStart Date_parse payload = JS.NaN \/
      newEnd Date_parse payload = JS.NaN
  end.
Proof.
  intros (d & t & minutes & Hd & Ht & Hdur)%required_fields.
  unfold Spec.request_interval, Spec.interval, Spec.within_range, newEnd,
    newStart.
  rewrite Hd, Ht, Hdur. cbn [JS.interpolate JS.to_number].
  destruct (Date_parse _) as [start|]; [|left; reflexivity].
  destruct minutes as [m|].
  - rewrite andb_true_iff. intros [Hs He].
    rewrite (time_clip_within start Hs). cbn [JS.add JS.mul].
    rewrite time_clip_within by exact He. auto.
  - intros _. right. destruct (JS.time_clip (JS.Num start)); reflexivity.
Qed.

(** Within the range of [Date], the overlap test of [createAppointment] is
    the overlap of the two intervals. *)
Lemma clashes_overlaps (payload : Payload) (apt : Appointment) :
  Spec.first_missing payload = None ->
  Spec.within_range (Spec.request_interval Date_parse payload) = true ->
  Spec.within_range (Spec.appointment_interval Date_parse apt) = true ->
  clashes Date_parse payload apt =
  Spec.overlaps (Spec.request_interval Date_parse payload)
                (Spec.appointment_interval Date_parse apt).
Proof.
  intros Hvalid Hreq Hapt.
  pose proof (new_interval payload Hvalid Hreq) as Hnew.
  pose proof (existing_interval apt Hapt) as Hold.
  unfold clashes, JS.gt, Spec.overlaps.
  destruct (Spec.request_interval Date_parse payload) as [[s1 e1]|].
  - destruct Hnew as [-> ->].
    destruct (Spec.appointment_interval Date_parse apt) as [[s2 e2]|].
    + destruct Hold as [-> ->]. reflexivity.
    + rewrite Hold. reflexivity.
  - destruct Hnew as [-> | ->]; [reflexivity|].
    rewrite lt_NaN_r. apply andb_false_r.
Qed.

(** A record passes the filter and the overlap test of [createAppointment]
    exactly when it blocks the request. *)
Lemma clash_blocks (payload : Payload) (apt : Appointment) :
  Spec.first_missing payload = None ->
  Spec.within_range (Spec.request_interval Date_parse payload) = true ->
  Spec.within_range (Spec.appointment_interval Date_parse apt) = true ->
  same_slot_candidate payload apt && clashes Date_parse payload apt = true <->
  Spec.blocks Date_parse payload apt.
Proof.
  intros Hvalid Hreq Hapt. rewrite (clashes_overlaps payload apt) by assumption.
  unfold same_slot_candidate, Spec.blocks.
  rewrite !andb_true_iff, !negb_true_iff, !strict_eq_true, !String.eqb_neq.
  tauto.
Qed.

Lemma find_filter {A} (f g : A -> bool) (l : list A) :
  List.find f (List.filter g l) = List.find (fun x => g x && f x) l.
Proof.
  induction l as [|x l IH]; simpl; [reflexivity|].
  destruct (g x); simpl; [|exact IH].
  destruct (f x); [reflexivity|exact IH].
Qed.

End Runs.

(** ** Status updates *)

(** C1 (as amended): [updateAppointmentStatus] fails, with the error
    'Appointment not found' and the store untouched, exactly when no record
    has the given id; otherwise it succeeds whatever the current and the
    requested status are: the first record with that id gets the new status
    and is returned.  No transition is refused. *)
Theorem C1_update_fails_only_when_absent (id0 newStatus : string) (s : Store) :
  (Forall (fun a => id a <> id0) s /\
   updateAppointmentStatus id0 newStatus s =
     (inl (MkError "Appointment not found"), s))
  \/
  (exists i apt,
     s !! i = Some apt /\ id apt = id0 /\
     (forall j b, s !! j = Some b -> (j < i)%nat -> id b <> id0) /\
     updateAppointmentStatus id0 newStatus s =
       (inr (set_status apt newStatus), <[i := set_status apt newStatus]> s)).
Proof.
  rewrite updateAppointmentStatus_run.
  destruct (list_find (fun a => id a = id0) s) as [[i apt]|] eqn:Hfind.
  - right. apply list_find_Some in Hfind as (Hi & Hid & Hfirst).
    exists i, apt. repeat split; auto.
  - left. apply list_find_None in Hfind. split; [exact Hfind|reflexivity].
Qed.

(** C1, as stated, fails: the completed record apt-006 is updated to
    'Scheduled', an edge that the transition table does not have. *)
Lemma C1_completed_to_scheduled_accepted :
  exists i apt,
    mockAppointments !! i = Some apt /\ id apt = "apt-006" /\
    status apt = "Completed" /\
    Spec.transition_allowed (status apt) "Scheduled" = false /\
    updateAppointmentStatus "apt-006" "Scheduled" mockAppointments =
      (inr (set_status apt "Scheduled"),
       <[i := set_status apt "Scheduled"]> mockAppointments).
Proof.
  exists 5%nat. eexists. split; [reflexivity|].
  repeat split; vm_compute; reflexivity.
Qed.

(** C10: a successful [updateAppointmentStatus] writes the status of one
    record, the one it returns; the other seven fields of that record and
    every other position of the store are as before. *)
Theorem C10_update_writes_status_only (id0 newStatus : string) (s : Store)
    (apt' : Appointment) (s' : Store) :
  updateAppointmentStatus id0 newStatus s = (inr apt', s') ->
  only_status_written s id0 newStatus apt' s'.
Proof.
  rewrite updateAppointmentStatus_run.
  destruct (list_find (fun a => id a = id0) s) as [[i apt]|] eqn:Hfind;
    [|discriminate].
  intros [= <- <-].
  apply list_find_Some in Hfind as (Hi & Hid & _).
  exists i, apt. split; [exact Hi|]. split; [exact Hid|].
  split. { apply list_lookup_insert_eq. eapply lookup_lt_Some, Hi. }
  repeat (split; [reflexivity|]).
  split. { apply length_insert. }
  intros j Hj. apply list_lookup_insert_ne. congruence.
Qed.

(** C10 on the initial store: cancelling apt-001. *)
Lemma C10_update_writes_status_only_witness :
  only_status_written mockAppointments "apt-001" "Cancelled"
    (mkAppointment "apt-001" "John Smith" "2024-12-29" "09:00" (JS.Num 30)
       "Dr. Sarah Johnson" "Cancelled" "In-person")
    (<[0%nat := mkAppointment "apt-001" "John Smith" "2024-12-29" "09:00"
                  (JS.Num 30) "Dr. Sarah Johnson" "Cancelled" "In-person"]>
       mockAppointments).
Proof.
  apply (C10_update_writes_status_only "apt-001" "Cancelled" mockAppointments).
  vm_compute. reflexivity.
Defined.

(** ** Queries never write *)

Lemma getAppointments_run (localeCompare : string -> string -> comparison)
    (toLowerCase : string -> string)
    (filters : Filters) (s : Store) :
  getAppointments localeCompare toLowerCase filters s =
  (inr (JS.sort (by_date_time localeCompare)
          (filter_doctor toLowerCase filters (filter_status filters (filter_date filters s)))),
   s).
Proof. reflexivity. Qed.

Lemma Query_run (localeCompare : string -> string -> comparison)
    (toLowerCase : string -> string)
    (filters : Filters) (tab today : string) (s : Store) :
  Query localeCompare toLowerCase filters tab today s =
  (inr (getFilteredAppointments tab today
          (JS.sort (by_date_time localeCompare)
             (filter_doctor toLowerCase filters
                (filter_status filters (filter_date filters s))))),
   s).
Proof. reflexivity. Qed.

(** ** All or nothing *)

(** C7: each call of the service either succeeds, and the store then holds
    the change (the new record appended; the status written at one
    position; the first record with the id removed), or it ends with an
    [Error] value, or with [false] for a deletion, and the store is exactly
    the one before the call.  A query always succeeds and leaves the store
    as it is. *)
Theorem C7_all_or_nothing (Date_parse : string -> JS.number)
    (localeCompare : string -> string -> comparison)
    (toLowerCase : string -> string)
    (now : Z) (payload : Payload) (id0 newStatus : string)
    (filters : Filters) (tab today : string) (s : Store) :
  match createAppointment Date_parse now payload s with
  | (inl _, s') => s' = s
  | (inr apt, s') => s' = (s ++ [apt])%list
  end /\
  match updateAppointmentStatus id0 newStatus s with
  | (inl _, s') => s' = s
  | (inr apt, s') =>
      exists i, (i < length s)%nat /\ s' = <[i := apt]> s /\
                id apt = id0 /\ status apt = newStatus
  end /\
  match deleteAppointment id0 s with
  | (inl _, _) => False
  | (inr false, s') => s' = s /\ Forall (fun a => id a <> id0) s
  | (inr true, s') =>
      exists i apt, s !! i = Some apt /\ id apt = id0 /\ s' = delete i s /\
                    length s = S (length s')
  end /\
  exists result, Query localeCompare toLowerCase filters tab today s = (inr result, s).
Proof.
  split; [|split; [|split]].
  - rewrite createAppointment_run.
    destruct (Spec.first_missing payload); [reflexivity|].
    destruct (List.find _ _); reflexivity.
  - rewrite updateAppointmentStatus_run.
    destruct (list_find _ s) as [[i apt]|] eqn:Hfind; [|reflexivity].
    apply list_find_Some in Hfind as (Hi & Hid & _).
    exists i. split; [eapply lookup_lt_Some, Hi|]. auto.
  - rewrite deleteAppointment_run.
    destruct (list_find _ s) as [[i apt]|] eqn:Hfind.
    + apply list_find_Some in Hfind as (Hi & Hid & _).
      exists i, apt. repeat split; auto.
      rewrite length_delete by eauto.
      apply lookup_lt_Some in Hi. lia.
    + apply list_find_None in Hfind. auto.
  - rewrite Query_run. eauto.
Qed.

(** ** Validation *)

(** C5 (as amended): [createAppointment] looks at the six required fields
    in the order patientName, date, time, duration, doctorName, mode and
    asks of each only that it be present and truthy (not the empty string,
    not 0, not NaN).  The first field that is not makes the call fail with
    'Missing required field: <field>', the store untouched; when all six are
    truthy no validation error is raised, whatever they contain. *)
Theorem C5_validation_is_presence_in_order (Date_parse : string -> JS.number)
    (now : Z) (payload : Payload) (s : Store) :
  match Spec.first_missing payload with
  | Some f =>
      createAppointment Date_parse now payload s =
        (inl (MkError ("Missing required field: " +:+ f)), s)
  | None =>
      forall f, fst (createAppointment Date_parse now payload s) <>
                inl (MkError ("Missing required field: " +:+ f))
  end.
Proof.
  rewrite createAppointment_run.
  destruct (Spec.first_missing payload); [reflexivity|].
  intros f. destruct (List.find _ _); simpl; discriminate.
Qed.

(** C5, as stated, fails: a request with a negative duration, one with a
    mode outside the three enumerated values, and one whose date and time
    do not parse are all accepted and stored. *)
Lemma C5_malformed_requests_accepted :
  (Spec.duration_ok (JS.Num (-30)) = false /\
   exists apt,
     createAppointment Host.Date_parse clock
       (form_payload "Ann Lee" "2024-12-31" "09:00" (-30) "Dr. Emily Brown" "Video")
       mockAppointments = (inr apt, (mockAppointments ++ [apt])%list) /\
     duration apt = JS.Num (-30)) /\
  (Spec.mode_ok "Telepathy" = false /\
   exists apt,
     createAppointment Host.Date_parse clock
       (form_payload "Ann Lee" "2024-12-31" "09:00" 30 "Dr. Emily Brown" "Telepathy")
       mockAppointments = (inr apt, (mockAppointments ++ [apt])%list) /\
     mode apt = "Telepathy") /\
  (Host.Date_parse ("someday" +:+ "T" +:+ "noon") = JS.NaN /\
   exists apt,
     createAppointment Host.Date_parse clock
       (form_payload "Ann Lee" "someday" "noon" 30 "Dr. Emily Brown" "Video")
       mockAppointments = (inr apt, (mockAppointments ++ [apt])%list) /\
     date apt = "someday" /\ time apt = "noon").
Proof.
  split; [|split]; (split; [reflexivity|]);
    eexists; rewrite createAppointment_run; simpl; repeat split.
Qed.

(** ** Conflict detection *)

Lemma find_split {A} (f : A -> bool) (l : list A) (x : A) :
  List.find f l = Some x ->
  exists l1 l2, l = (l1 ++ x :: l2)%list /\ f x = true /\
                Forall (fun y => f y = false) l1.
Proof.
  induction l as [|y l IH]; simpl; [discriminate|].
  destruct (f y) eqn:Hy.
  - intros [= ->]. exists [], l. auto.
  - intros Hfind. destruct (IH Hfind) as (l1 & l2 & -> & Hx & Hl1).
    exists (y :: l1), l2. auto.
Qed.

Lemma conflict_message_inj (t u : string) :
  "Time conflict with appointment at " +:+ t =
  "Time conflict with appointment at " +:+ u -> t = u.
Proof. intros H. cbv in H. congruence. Qed.

(** C3 (as amended): take a request that passes validation, and let the
    interval [[date+time, date+time+duration)] of the request and of every
    stored record lie within the range of [Date] (a record whose date and
    time do not parse has no interval).  Then [createAppointment] fails
    with 'Time conflict with appointment at <t>' exactly when some stored
    record blocks the request, that is, has the same doctor and the same
    date string, a status other than 'Cancelled' and 'Completed', and an
    interval that overlaps the request's as half-open intervals; [t] is the
    time of the first such record; with no such record the request is
    stored.  A record that ends exactly when the request starts does not
    block it. *)
Theorem C3_conflict_iff_blocked (Date_parse : string -> JS.number)
    (now : Z) (payload : Payload) (s : Store) :
  Spec.first_missing payload = None ->
  Spec.within_range (Spec.request_interval Date_parse payload) = true ->
  Forall (fun apt =>
            Spec.within_range (Spec.appointment_interval Date_parse apt) = true)
         s ->
  ((exists apt, In apt s /\ Spec.blocks Date_parse payload apt) <->
   (exists t, createAppointment Date_parse now payload s =
              (inl (MkError ("Time conflict with appointment at " +:+ t)), s))) /\
  (forall t,
     createAppointment Date_parse now payload s =
       (inl (MkError ("Time conflict with appointment at " +:+ t)), s) ->
     exists l1 apt l2,
       s = (l1 ++ apt :: l2)%list /\ Spec.blocks Date_parse payload apt /\
       time apt = t /\
       Forall (fun b => ~ Spec.blocks Date_parse payload b) l1) /\
  ((forall apt, In apt s -> ~ Spec.blocks Date_parse payload apt) ->
   createAppointment Date_parse now payload s =
     (inr (newApt now payload), (s ++ [newApt now payload])%list)) /\
  (forall apt start finish finish',
     Spec.appointment_interval Date_parse apt = Some (start, finish) ->
     Spec.request_interval Date_parse payload = Some (finish, finish') ->
     ~ Spec.blocks Date_parse payload apt).
Proof.
  intros Hvalid Hreq Hstore. rewrite List.Forall_forall in Hstore.
  assert (Hcb : forall apt, In apt s ->
            (same_slot_candidate payload apt && clashes Date_parse payload apt
             = true <-> Spec.blocks Date_parse payload apt)).
  { intros apt Hin. apply clash_blocks; auto. }
  rewrite createAppointment_run, Hvalid, find_filter.
  set (f := fun x => same_slot_candidate payload x && clashes Date_parse payload x).
  split; [|split; [|split]].
  - split.
    + intros (apt & Hin & Hblocks).
      destruct (List.find f s) as [apt'|] eqn:Hfind; [eauto|].
      apply (Hcb apt Hin) in Hblocks.
      apply (find_none _ _ Hfind) in Hin. unfold f in Hin. congruence.
    + intros (t & Hrun).
      destruct (List.find f s) as [apt'|] eqn:Hfind; [|discriminate].
      apply find_some in Hfind as [Hin Hf].
      exists apt'. split; [exact Hin|]. apply (Hcb apt' Hin), Hf.
  - intros t Hrun.
    destruct (List.find f s) as [apt'|] eqn:Hfind; [|discriminate].
    apply find_split in Hfind as (l1 & l2 & Hs & Hf & Hl1).
    exists l1, apt', l2. split; [exact Hs|].
    assert (Hin' : In apt' s)
      by (rewrite Hs; apply in_or_app; right; left; reflexivity).
    split; [apply (Hcb apt' Hin'), Hf|].
    split. { apply conflict_message_inj. congruence. }
    apply List.Forall_forall. intros b Hb Hblocks.
    assert (Hinb : In b s) by (rewrite Hs; apply in_or_app; left; exact Hb).
    apply (Hcb b Hinb) in Hblocks.
    rewrite List.Forall_forall in Hl1. specialize (Hl1 b Hb). cbv beta in Hl1.
    unfold f in Hl1. congruence.
  - intros Hfree.
    destruct (List.find f s) as [apt'|] eqn:Hfind; [|reflexivity].
    apply find_some in Hfind as [Hin Hf].
    destruct (Hfree _ Hin). apply (Hcb apt' Hin), Hf.
  - intros apt start finish finish' Hapt Hnew (_ & _ & _ & _ & Hov).
    rewrite Hapt, Hnew in Hov. simpl in Hov.
    rewrite Z.ltb_irrefl in Hov. discriminate.
Qed.

(** C3 on the initial store: 09:30 is free for Dr. Sarah Johnson next to the
    09:00 record of 30 minutes, and 09:15 is not. *)
Lemma C3_conflict_iff_blocked_witness :
  Spec.first_missing half_past_nine = None /\
  createAppointment Host.Date_parse clock half_past_nine mockAppointments =
    (inr (newApt clock half_past_nine),
     (mockAppointments ++ [newApt clock half_past_nine])%list) /\
  exists t,
    createAppointment Host.Date_parse clock quarter_past_nine mockAppointments =
      (inl (MkError ("Time conflict with appointment at " +:+ t)),
       mockAppointments).
Proof.
  assert (Hstore : Forall (fun apt =>
            Spec.within_range (Spec.appointment_interval Host.Date_parse apt)
            = true) mockAppointments)
    by (repeat (constructor; [reflexivity|]); constructor).
  split; [reflexivity|]. split.
  - destruct (C3_conflict_iff_blocked Host.Date_parse clock half_past_nine
                mockAppointments eq_refl eq_refl Hstore) as (_ & _ & Hfree & _).
    apply Hfree. intros apt Hin (Hdoc & Hdate & _ & _ & Hov).
    simpl in Hin.
    repeat (destruct Hin as [<-|Hin];
            [try discriminate Hdoc; try discriminate Hdate;
             vm_compute in Hov; discriminate Hov|]).
    destruct Hin.
  - destruct (C3_conflict_iff_blocked Host.Date_parse clock quarter_past_nine
                mockAppointments eq_refl eq_refl Hstore) as (Hiff & _).
    apply Hiff.
    exists (mkAppointment "apt-001" "John Smith" "2024-12-29" "09:00"
              (JS.Num 30) "Dr. Sarah Johnson" "Confirmed" "In-person").
    split; [left; reflexivity|].
    repeat split; discriminate.
Defined.

(** C3, as stated, fails in three ways.  An active record of the same
    doctor runs from 23:30 to 00:30 and overlaps a request for 00:00 on the
    next day, and the request is accepted.  A request for 09:15 that lasts
    1e15 minutes overlaps the active 09:00 record of the same doctor and
    date, and is accepted: its end is beyond the range of [Date].  And once
    that record is stored, a request for 09:30 of 30 minutes, which it
    blocks, is accepted. *)
Lemma C3_overlap_across_midnight_accepted :
  (exists existing s1,
     createAppointment Host.Date_parse clock late_evening mockAppointments =
       (inr existing, s1) /\
     Spec.active (status existing) = true /\
     Some (doctorName existing) = p_doctorName after_midnight /\
     Spec.overlaps (Spec.appointment_interval Host.Date_parse existing)
                   (Spec.request_interval Host.Date_parse after_midnight)
       = true /\
     Spec.first_missing after_midnight = None /\
     exists apt,
       createAppointment Host.Date_parse (clock + 1) after_midnight s1 =
         (inr apt, (s1 ++ [apt])%list)) /\
  (exists existing,
     In existing mockAppointments /\
     Spec.active (status existing) = true /\
     Some (doctorName existing) = p_doctorName endless /\
     Some (date existing) = p_date endless /\
     Spec.overlaps (Spec.appointment_interval Host.Date_parse existing)
                   (Spec.request_interval Host.Date_parse endless) = true /\
     Spec.first_missing endless = None /\
     exists apt,
       createAppointment Host.Date_parse clock endless mockAppointments =
         (inr apt, (mockAppointments ++ [apt])%list)) /\
  (Spec.first_missing half_past_nine = None /\
   Spec.within_range (Spec.request_interval Host.Date_parse half_past_nine)
     = true /\
   Spec.blocks Host.Date_parse half_past_nine (newApt clock endless) /\
   exists apt,
     createAppointment Host.Date_parse (clock + 1) half_past_nine
       [newApt clock endless] = (inr apt, [newApt clock endless; apt])).
Proof.
  split; [|split].
  - do 2 eexists. split; [rewrite createAppointment_run; simpl; reflexivity|].
    split; [reflexivity|]. split; [reflexivity|].
    split; [vm_compute; reflexivity|]. split; [reflexivity|].
    eexists. rewrite createAppointment_run. simpl. reflexivity.
  - exists (mkAppointment "apt-001" "John Smith" "2024-12-29" "09:00"
              (JS.Num 30) "Dr. Sarah Johnson" "Confirmed" "In-person").
    split; [left; reflexivity|]. split; [reflexivity|].
    split; [reflexivity|]. split; [reflexivity|].
    split; [vm_compute; reflexivity|]. split; [reflexivity|].
    eexists. rewrite createAppointment_run. simpl. reflexivity.
  - split; [reflexivity|]. split; [reflexivity|]. split.
    + repeat split; discriminate.
    + eexists. rewrite createAppointment_run. simpl. reflexivity.
Qed.

Lemma filter_implied {A} (f g : A -> bool) (l : list A) :
  (forall x, f x = true -> g x = true) ->
  List.filter f (List.filter g l) = List.filter f l.
Proof.
  intros Himp. induction l as [|x l IH]; simpl; [reflexivity|].
  destruct (g x) eqn:Hg; simpl.
  - destruct (f x); congruence.
  - destruct (f x) eqn:Hf; [|exact IH].
    apply Himp in Hf. congruence.
Qed.

(** C4: the outcome of [createAppointment] is the one it has on the records
    stored under the request's own date string; a record under any other
    date is never looked at, so it causes no conflict even when its
    interval runs past midnight into the requested date (here 23:30 for 60
    minutes against a request for 00:00 on the next day). *)
Theorem C4_conflicts_only_within_the_date :
  (forall (Date_parse : string -> JS.number) (now : Z) (payload : Payload)
          (s : Store),
     fst (createAppointment Date_parse now payload s) =
     fst (createAppointment Date_parse now payload
            (List.filter (fun apt => JS.strict_eq (date apt) (p_date payload)) s)))
  /\
  (exists existing,
     existing = newApt clock late_evening /\
     Spec.double_booked Host.Date_parse existing (newApt clock after_midnight)
       = true /\
     createAppointment Host.Date_parse clock after_midnight
       (mockAppointments ++ [existing])%list =
       (inr (newApt clock after_midnight),
        (mockAppointments ++ [existing; newApt clock after_midnight])%list)).
Proof.
  split.
  - intros Date_parse now payload s.
    rewrite !createAppointment_run.
    destruct (Spec.first_missing payload); [reflexivity|].
    rewrite filter_implied.
    + destruct (List.find _ _); reflexivity.
    + intros x. unfold same_slot_candidate.
      rewrite !andb_true_iff. tauto.
  - eexists. split; [reflexivity|]. split; [vm_compute; reflexivity|].
    rewrite createAppointment_run. simpl. reflexivity.
Qed.

(** ** Identifiers *)

(** C6 at a failing input: two requests served while the clock reads the
    same millisecond are stored under the same id. *)
Lemma C6_same_clock_same_id :
  exists apt1 s1 apt2 s2,
    createAppointment Host.Date_parse clock half_past_nine mockAppointments =
      (inr apt1, s1) /\
    createAppointment Host.Date_parse clock after_midnight s1 = (inr apt2, s2) /\
    s2 !! 10%nat = Some apt1 /\ s2 !! 11%nat = Some apt2 /\
    id apt1 = "apt-1735460000000" /\ id apt2 = "apt-1735460000000".
Proof.
  do 4 eexists.
  split; [rewrite createAppointment_run; simpl; reflexivity|].
  split; [rewrite createAppointment_run; simpl; reflexivity|].
  repeat split; vm_compute; reflexivity.
Qed.

(** ** Double booking *)

Section DoubleBooking.

Variable Date_parse : string -> JS.number.

Lemma overlaps_sym (i1 i2 : option (Z * Z)) :
  Spec.overlaps i1 i2 = Spec.overlaps i2 i1.
Proof.
  destruct i1 as [[s1 e1]|], i2 as [[s2 e2]|]; simpl; auto using andb_comm.
Qed.

Lemma double_booked_sym (a b : Appointment) :
  Spec.double_booked Date_parse a b = Spec.double_booked Date_parse b a.
Proof.
  unfold Spec.double_booked.
  rewrite (String.eqb_sym (doctorName a)),
    (overlaps_sym (Spec.appointment_interval Date_parse a)).
  destruct (String.eqb _ _), (Spec.active (status a)),
    (Spec.active (status b)); reflexivity.
Qed.

(** The interval of a stored record is the one computed for its request. *)
Lemma newApt_interval (now : Z) (payload : Payload) :
  Spec.first_missing payload = None ->
  Spec.appointment_interval Date_parse (newApt now payload) =
  Spec.request_interval Date_parse payload.
Proof.
  intros Hvalid.
  destruct (createAppointment_fields now payload Hvalid)
    as (_ & Hd & Ht & Hdur & _ & _).
  unfold Spec.appointment_interval, Spec.request_interval.
  rewrite Hd, Ht, Hdur. reflexivity.
Qed.

Lemma active_not_closed (st : string) :
  Spec.active st = true ->
  String.eqb st "Cancelled" = false /\ String.eqb st "Completed" = false.
Proof.
  unfold Spec.active. rewrite !orb_true_iff, !String.eqb_eq.
  intros [[->| ->]| ->]; split; reflexivity.
Qed.

(** A record that passed the conflict loop is double booked with no stored
    record of its date. *)
Lemma accepted_is_compatible (now : Z) (payload : Payload) (s : Store)
    (a : Appointment) :
  Spec.first_missing payload = None ->
  Spec.within_range (Spec.request_interval Date_parse payload) = true ->
  Spec.within_range (Spec.appointment_interval Date_parse a) = true ->
  List.find (clashes Date_parse payload)
            (List.filter (same_slot_candidate payload) s) = None ->
  In a s -> date a = date (newApt now payload) ->
  Spec.double_booked Date_parse a (newApt now payload) = false.
Proof.
  intros Hvalid Hreq Hrange Hfind Hin Hdate.
  destruct (Spec.double_booked Date_parse a (newApt now payload)) eqn:Hdb;
    [|reflexivity].
  exfalso. unfold Spec.double_booked in Hdb.
  rewrite !andb_true_iff in Hdb. destruct Hdb as [[[Hdoc Ha] _] Hov].
  apply String.eqb_eq in Hdoc. apply active_not_closed in Ha as [Hc1 Hc2].
  destruct (createAppointment_fields now payload Hvalid)
    as (_ & Hd & _ & _ & Hdc & _).
  rewrite (newApt_interval now payload Hvalid), overlaps_sym in Hov.
  assert (Hcand : same_slot_candidate payload a = true).
  { unfold same_slot_candidate. rewrite Hc1, Hc2, Hd, Hdc.
    unfold JS.strict_eq. rewrite Hdoc, Hdate, !String.eqb_refl. reflexivity. }
  assert (Hclash : clashes Date_parse payload a = true)
    by (rewrite clashes_overlaps; assumption).
  rewrite find_filter in Hfind.
  apply (find_none _ _ Hfind) in Hin. rewrite Hcand, Hclash in Hin.
  discriminate.
Qed.

Lemma double_booked_set_status (apt b : Appointment) (newStatus : string) :
  Spec.active newStatus = Spec.active (status apt) ->
  Spec.double_booked Date_parse (set_status apt newStatus) b =
  Spec.double_booked Date_parse apt b.
Proof.
  intros Hact. unfold Spec.double_booked, Spec.appointment_interval. simpl.
  rewrite Hact. reflexivity.
Qed.

Lemma double_booked_inactive (a b : Appointment) :
  Spec.active (status a) = false -> Spec.double_booked Date_parse a b = false.
Proof.
  intros Hact. unfold Spec.double_booked. rewrite Hact.
  destruct (String.eqb _ _); reflexivity.
Qed.

(** A status update that does not reactivate keeps a record compatible
    with those it was compatible with. *)
Lemma updated_is_compatible (apt b : Appointment) (newStatus : string) :
  Spec.active newStatus && negb (Spec.active (status apt)) = false ->
  Spec.double_booked Date_parse apt b = false ->
  Spec.double_booked Date_parse (set_status apt newStatus) b = false.
Proof.
  intros Hguard Hold.
  destruct (Spec.active newStatus) eqn:Hnew.
  - destruct (Spec.active (status apt)) eqn:Hcur; [|discriminate].
    rewrite double_booked_set_status; [exact Hold|congruence].
  - apply double_booked_inactive. exact Hnew.
Qed.

Lemma create_preserves (now : Z) (payload : Payload) (s s' : Store) :
  Spec.no_double_booking_same_date Date_parse s ->
  Spec.within_range (Spec.request_interval Date_parse payload) = true ->
  Forall (fun apt =>
            Spec.within_range (Spec.appointment_interval Date_parse apt) = true)
         s ->
  run_op Date_parse (Create now payload) s = Some s' ->
  Spec.no_double_booking_same_date Date_parse s'.
Proof.
  intros Hinv Hreq Hstore. simpl. rewrite createAppointment_run.
  destruct (Spec.first_missing payload) eqn:Hvalid; [discriminate|].
  destruct (List.find _ _) eqn:Hfind; [discriminate|].
  intros [= <-] i j a b Hij Ha Hb Hdate.
  apply lookup_app_Some in Ha as [Ha|[Hia Ha]];
    apply lookup_app_Some in Hb as [Hb|[Hjb Hb]].
  - eapply Hinv; eauto.
  - apply list_lookup_singleton_Some in Hb as [_ <-].
    eapply accepted_is_compatible; eauto.
    + apply (Forall_lookup_1 _ _ _ _ Hstore Ha).
    + apply list_elem_of_In, list_elem_of_lookup. eauto.
  - apply list_lookup_singleton_Some in Ha as [_ <-].
    rewrite double_booked_sym.
    eapply accepted_is_compatible; eauto.
    + apply (Forall_lookup_1 _ _ _ _ Hstore Hb).
    + apply list_elem_of_In, list_elem_of_lookup. eauto.
  - apply list_lookup_singleton_Some in Ha as [Hi _].
    apply list_lookup_singleton_Some in Hb as [Hj _]. lia.
Qed.

Lemma update_preserves (id0 newStatus : string) (s s' : Store) :
  Spec.no_double_booking_same_date Date_parse s ->
  Spec.reactivates (UpdateStatus id0 newStatus) s = false ->
  run_op Date_parse (UpdateStatus id0 newStatus) s = Some s' ->
  Spec.no_double_booking_same_date Date_parse s'.
Proof.
  intros Hinv. simpl. rewrite updateAppointmentStatus_run.
  destruct (list_find _ s) as [[k apt]|] eqn:Hfind; [|discriminate].
  apply list_find_Some in Hfind as (Hk & _ & _).
  intros Hguard [= <-] i j a b Hij Ha Hb Hdate.
  apply list_lookup_insert_Some in Ha as [(-> & <- & _)|[Hik Ha]];
    apply list_lookup_insert_Some in Hb as [(-> & <- & _)|[Hjk Hb]].
  - congruence.
  - apply updated_is_compatible; [exact Hguard|].
    apply (Hinv i j apt b); auto.
  - rewrite double_booked_sym.
    apply updated_is_compatible; [exact Hguard|].
    apply (Hinv j i apt a); auto.
  - apply (Hinv i j a b); auto.
Qed.

Lemma lookup_delete_shift (s : Store) (k i : nat) (a : Appointment) :
  delete k s !! i = Some a ->
  exists i', s !! i' = Some a /\
             ((i' = i /\ (i < k)%nat) \/ (i' = S i /\ (k <= i)%nat)).
Proof.
  intros Hi. destruct (Nat.lt_ge_cases i k) as [Hlt|Hge].
  - rewrite list_lookup_delete_lt in Hi by exact Hlt. eauto.
  - rewrite list_lookup_delete_ge in Hi by exact Hge. eauto.
Qed.

Lemma delete_preserves (id0 : string) (s s' : Store) :
  Spec.no_double_booking_same_date Date_parse s ->
  run_op Date_parse (Delete id0) s = Some s' ->
  Spec.no_double_booking_same_date Date_parse s'.
Proof.
  intros Hinv. simpl. rewrite deleteAppointment_run.
  destruct (list_find _ s) as [[k apt]|]; intros [= <-]; [|exact Hinv].
  intros i j a b Hij Ha Hb Hdate.
  apply lookup_delete_shift in Ha as (i' & Ha & Hi').
  apply lookup_delete_shift in Hb as (j' & Hb & Hj').
  apply (Hinv i' j' a b); auto. lia.
Qed.

Lemma pairwise_sound (R : Appointment -> Appointment -> bool) (s : Store) :
  (forall a b, R a b = R b a) ->
  pairwise R s = true ->
  forall i j a b, i <> j -> s !! i = Some a -> s !! j = Some b -> R a b = true.
Proof.
  intros Hsym. induction s as [|x s IH]; simpl; [intros _ i j a b _ Hi; discriminate|].
  rewrite andb_true_iff, forallb_forall. intros [Hx Hs] i j a b Hij Ha Hb.
  destruct i as [|i], j as [|j]; simpl in Ha, Hb.
  - congruence.
  - injection Ha as <-. apply Hx, list_elem_of_In, list_elem_of_lookup. eauto.
  - injection Hb as <-. rewrite Hsym.
    apply Hx, list_elem_of_In, list_elem_of_lookup. eauto.
  - apply (IH Hs i j); auto.
Qed.

Lemma pairwise_no_double_booking (s : Store) :
  pairwise (compatible Date_parse) s = true ->
  Spec.no_double_booking Date_parse s.
Proof.
  intros Hp i j a b Hij Ha Hb.
  apply negb_true_iff.
  apply (pairwise_sound (compatible Date_parse) s) with (i := i) (j := j); auto.
  intros x y. unfold compatible. rewrite double_booked_sym. reflexivity.
Qed.

Lemma pairwise_no_double_booking_same_date (s : Store) :
  pairwise (compatible_same_date Date_parse) s = true ->
  Spec.no_double_booking_same_date Date_parse s.
Proof.
  intros Hp i j a b Hij Ha Hb Hdate.
  assert (H : compatible_same_date Date_parse a b = true).
  { apply (pairwise_sound (compatible_same_date Date_parse) s)
      with (i := i) (j := j); auto.
    intros x y. unfold compatible_same_date.
    rewrite double_booked_sym, String.eqb_sym. reflexivity. }
  unfold compatible_same_date in H. rewrite Hdate, String.eqb_refl in H.
  apply negb_true_iff in H. exact H.
Qed.

(** The calls keep every stored interval within the range of [Date], as
    long as the requests are. *)
Lemma step_within_range (op : Op) (s s' : Store) :
  Spec.requests_within_range Date_parse [op] = true ->
  Forall (fun apt =>
            Spec.within_range (Spec.appointment_interval Date_parse apt) = true)
         s ->
  run_op Date_parse op s = Some s' ->
  Forall (fun apt =>
            Spec.within_range (Spec.appointment_interval Date_parse apt) = true)
         s'.
Proof.
  intros Hreq Hstore. destruct op as [now payload|id0 newStatus|id0]; simpl.
  - rewrite createAppointment_run.
    destruct (Spec.first_missing payload) eqn:Hvalid; [discriminate|].
    destruct (List.find _ _); [discriminate|]. intros [= <-].
    apply Forall_app. split; [exact Hstore|].
    constructor; [|constructor].
    rewrite (newApt_interval now payload Hvalid).
    simpl in Hreq. rewrite andb_true_r in Hreq. exact Hreq.
  - rewrite updateAppointmentStatus_run.
    destruct (list_find _ s) as [[k apt]|] eqn:Hfind; [|discriminate].
    apply list_find_Some in Hfind as (Hk & _ & _). intros [= <-].
    apply Forall_insert; [exact Hstore|].
    apply (Forall_lookup_1 _ _ _ _ Hstore Hk).
  - rewrite deleteAppointment_run.
    destruct (list_find _ s) as [[k apt]|]; intros [= <-]; [|exact Hstore].
    apply Forall_delete. exact Hstore.
Qed.

End DoubleBooking.

Lemma step_preserves (Date_parse : string -> JS.number) (op : Op)
    (s s' : Store) :
  Spec.no_double_booking_same_date Date_parse s ->
  Spec.requests_within_range Date_parse [op] = true ->
  Forall (fun apt =>
            Spec.within_range (Spec.appointment_interval Date_parse apt) = true)
         s ->
  Spec.reactivates op s = false ->
  run_op Date_parse op s = Some s' ->
  Spec.no_double_booking_same_date Date_parse s'.
Proof.
  destruct op as [now payload|id0 newStatus|id0];
    intros Hinv Hreq Hstore Hguard Hrun.
  - eapply create_preserves; eauto.
    simpl in Hreq. rewrite andb_true_r in Hreq. exact Hreq.
  - eapply update_preserves; eauto.
  - eapply delete_preserves; eauto.
Qed.

(** C2 (as amended): start from a store in which no two active records of
    one doctor stored under one date overlap, an appointment taking the
    interval [[date+time, date+time+duration)], and in which every such
    interval lies within the range of [Date].  After any sequence of
    successful [createAppointment], [updateAppointmentStatus] and
    [deleteAppointment] calls in which every request's interval lies within
    the range of [Date] and no status update takes a record from outside
    the active set back into it, still no two active records of one doctor
    stored under one date overlap. *)
Theorem C2_no_double_booking_within_a_date (Date_parse : string -> JS.number)
    (ops : list Op) (s s' : Store) :
  Spec.no_double_booking_same_date Date_parse s ->
  Forall (fun apt =>
            Spec.within_range (Spec.appointment_interval Date_parse apt) = true)
         s ->
  Spec.requests_within_range Date_parse ops = true ->
  Spec.never_reactivates Date_parse ops s = true ->
  run Date_parse ops s = Some s' ->
  Spec.no_double_booking_same_date Date_parse s'.
Proof.
  revert s.
  induction ops as [|op ops IH]; simpl; intros s Hinv Hstore Hreq Hguard Hrun.
  - injection Hrun as <-. exact Hinv.
  - apply andb_true_iff in Hguard as [Hop Hrest].
    apply negb_true_iff in Hop.
    apply andb_true_iff in Hreq as [Hreq1 Hreqs].
    assert (Hone : Spec.requests_within_range Date_parse [op] = true)
      by (simpl; rewrite Hreq1; reflexivity).
    destruct (run_op Date_parse op s) as [s1|] eqn:Hstep; [|discriminate].
    apply (IH s1); auto.
    + eapply step_preserves; eauto.
    + eapply step_within_range; eauto.
Qed.

(** C2 on the initial store, along a run of five calls. *)
Lemma C2_no_double_booking_within_a_date_witness :
  exists s',
    run Host.Date_parse ordinary_day mockAppointments = Some s' /\
    length s' = 11%nat /\
    Spec.no_double_booking_same_date Host.Date_parse s'.
Proof.
  eexists. split; [vm_compute; reflexivity|]. split; [reflexivity|].
  apply (C2_no_double_booking_within_a_date Host.Date_parse ordinary_day
           mockAppointments).
  - apply pairwise_no_double_booking_same_date. vm_compute. reflexivity.
  - repeat (constructor; [reflexivity|]). constructor.
  - vm_compute. reflexivity.
  - vm_compute. reflexivity.
  - vm_compute. reflexivity.
Defined.

(** C2, as stated, fails in three ways.  From the initial store, which has
    no double booking: two accepted requests, 23:30 for 60 minutes and 00:00
    on the next day, leave one doctor with two overlapping active records;
    cancelling a record, booking its slot, then setting the cancelled
    record to 'Confirmed' leaves two overlapping active records on one
    date; and an accepted request for 09:15 that lasts 1e15 minutes, its end
    beyond the range of [Date], leaves two overlapping active records on
    one date, as does an accepted request for 09:30 of 30 minutes on a
    store that holds such a record alone. *)
Lemma C2_double_booking_reached :
  Spec.no_double_booking Host.Date_parse mockAppointments /\
  (exists s',
     run Host.Date_parse two_bookings_around_midnight mockAppointments = Some s' /\
     ~ Spec.no_double_booking Host.Date_parse s') /\
  (exists s',
     run Host.Date_parse cancel_rebook_reactivate mockAppointments = Some s' /\
     ~ Spec.no_double_booking Host.Date_parse s' /\
     ~ Spec.no_double_booking_same_date Host.Date_parse s') /\
  (exists s',
     run Host.Date_parse [Create clock endless] mockAppointments = Some s' /\
     Spec.never_reactivates Host.Date_parse [Create clock endless]
       mockAppointments = true /\
     ~ Spec.no_double_booking_same_date Host.Date_parse s') /\
  (Spec.no_double_booking Host.Date_parse [newApt clock endless] /\
   exists s',
     run Host.Date_parse [Create (clock + 1) half_past_nine]
       [newApt clock endless] = Some s' /\
     Spec.requests_within_range Host.Date_parse
       [Create (clock + 1) half_past_nine] = true /\
     Spec.never_reactivates Host.Date_parse
       [Create (clock + 1) half_past_nine] [newApt clock endless] = true /\
     ~ Spec.no_double_booking_same_date Host.Date_parse s').
Proof.
  split; [|split; [|split; [|split]]].
  - apply pairwise_no_double_booking. vm_compute. reflexivity.
  - eexists. split; [vm_compute; reflexivity|].
    intros H.
    pose proof (H 10%nat 11%nat _ _ ltac:(lia) eq_refl eq_refl) as Hdb.
    vm_compute in Hdb. discriminate Hdb.
  - eexists. split; [vm_compute; reflexivity|]. split.
    + intros H.
      pose proof (H 0%nat 10%nat _ _ ltac:(lia) eq_refl eq_refl) as Hdb.
      vm_compute in Hdb. discriminate Hdb.
    + intros H.
      pose proof (H 0%nat 10%nat _ _ ltac:(lia) eq_refl eq_refl eq_refl) as Hdb.
      vm_compute in Hdb. discriminate Hdb.
  - eexists. split; [vm_compute; reflexivity|]. split; [reflexivity|].
    intros H.
    pose proof (H 0%nat 10%nat _ _ ltac:(lia) eq_refl eq_refl eq_refl) as Hdb.
    vm_compute in Hdb. discriminate Hdb.
  - split; [apply pairwise_no_double_booking; vm_compute; reflexivity|].
    eexists. split; [vm_compute; reflexivity|]. split; [reflexivity|].
    split; [reflexivity|]. intros H.
    pose proof (H 0%nat 1%nat _ _ ltac:(lia) eq_refl eq_refl eq_refl) as Hdb.
    vm_compute in Hdb. discriminate Hdb.
Qed.

(** ** The order of strings *)

Lemma compare_refl (s : string) : String.compare s s = Eq.
Proof.
  pose proof (String.compare_antisym s s) as H.
  destruct (String.compare s s); simpl in H; congruence.
Qed.

Lemma compare_lt_trans (s t u : string) :
  String.compare s t = Lt -> String.compare t u = Lt -> String.compare s u = Lt.
Proof.
  intros Hst Htu. apply String_as_OT.cmp_lt.
  eapply String_as_OT.lt_trans; apply String_as_OT.cmp_lt; eassumption.
Qed.

Lemma compare_gt_lt (s t : string) :
  String.compare s t = Gt -> String.compare t s = Lt.
Proof.
  intros H. rewrite String.compare_antisym, H. reflexivity.
Qed.

Lemma str_le_cases (s t : string) :
  Spec.str_le s t <-> Spec.str_lt s t \/ s = t.
Proof.
  unfold Spec.str_le, Spec.str_lt. split.
  - destruct (String.compare s t) eqn:Hc; try tauto.
    apply String.compare_eq_iff in Hc. auto.
  - intros [->| ->]; [discriminate|]. rewrite compare_refl. discriminate.
Qed.

Lemma str_le_trans (s t u : string) :
  Spec.str_le s t -> Spec.str_le t u -> Spec.str_le s u.
Proof.
  rewrite !str_le_cases. unfold Spec.str_lt.
  intros [Hst| ->] [Htu| ->]; eauto using compare_lt_trans.
Qed.

(** [s >= t] of the code is [t <= s] of the specification. *)
Lemma str_ge_le (s t : string) : JS.str_ge s t = true <-> Spec.str_le t s.
Proof.
  unfold JS.str_ge, String.ltb, Spec.str_le.
  rewrite (String.compare_antisym t s).
  destruct (String.compare s t); simpl; split; congruence.
Qed.

Lemma str_lt_lt (s t : string) : JS.str_lt s t = true <-> Spec.str_lt s t.
Proof.
  unfold JS.str_lt, String.ltb, Spec.str_lt.
  destruct (String.compare s t); split; congruence.
Qed.

(** ** The tabs *)

Lemma filter_sublist {A} (f : A -> bool) (l : list A) :
  sublist (List.filter f l) l.
Proof.
  induction l as [|x l IH]; simpl; [constructor|].
  destruct (f x); constructor; exact IH.
Qed.

Lemma one_of_three (st : string) :
  existsb (String.eqb st) ["Scheduled"; "Upcoming"; "Confirmed"] = true <->
  st = "Scheduled" \/ st = "Upcoming" \/ st = "Confirmed".
Proof.
  simpl. rewrite !orb_true_iff, !String.eqb_eq. intuition discriminate.
Qed.

Lemma tab_today (today : string) (l : list Appointment) :
  getFilteredAppointments "today" today l =
  List.filter (fun apt => String.eqb (date apt) today) l.
Proof. reflexivity. Qed.

Lemma tab_upcoming (today : string) (l : list Appointment) :
  getFilteredAppointments "upcoming" today l =
  List.filter
    (fun apt => JS.str_ge (date apt) today &&
                existsb (String.eqb (status apt))
                        ["Scheduled"; "Upcoming"; "Confirmed"]) l.
Proof. reflexivity. Qed.

Lemma tab_past (today : string) (l : list Appointment) :
  getFilteredAppointments "past" today l =
  List.filter
    (fun apt => JS.str_lt (date apt) today ||
                String.eqb (status apt) "Completed") l.
Proof. reflexivity. Qed.

Lemma tab_all (today : string) (l : list Appointment) :
  getFilteredAppointments "all" today l = l.
Proof. reflexivity. Qed.

(** C8: the list a query returns is the list fetched with the base filter,
    in the same order, cut down to the records its tab keeps: for 'today'
    those dated the reference date; for 'upcoming' those dated the
    reference date or later whose status is 'Scheduled', 'Upcoming' or
    'Confirmed'; for 'past' those dated before the reference date or
    'Completed'; for 'all' every record. *)
Theorem C8_tab_refinement (localeCompare : string -> string -> comparison)
    (toLowerCase : string -> string)
    (filters : Filters) (tab : Spec.Tab) (today : string) (s : Store) :
  exists base result,
    getAppointments localeCompare toLowerCase filters s = (inr base, s) /\
    Query localeCompare toLowerCase filters (Spec.tab_name tab) today s = (inr result, s) /\
    sublist result base /\
    forall apt, In apt result <-> In apt base /\ Spec.tab_keeps tab today apt.
Proof.
  rewrite getAppointments_run, Query_run.
  do 2 eexists. split; [reflexivity|]. split; [reflexivity|].
  destruct tab; unfold Spec.tab_name, Spec.tab_keeps;
    rewrite ?tab_today, ?tab_upcoming, ?tab_past, ?tab_all;
    (split; [try apply filter_sublist; reflexivity|]);
    intros apt; rewrite ?filter_In.
  - rewrite String.eqb_eq. reflexivity.
  - rewrite andb_true_iff, str_ge_le, one_of_three. reflexivity.
  - rewrite orb_true_iff, str_lt_lt, String.eqb_eq. reflexivity.
  - tauto.
Qed.

(** ** Sorting *)

Section SortFacts.

Context {A : Type}.

Lemma insert_sorted_In (cmp : A -> A -> comparison) (x z : A) (l : list A) :
  In z (JS.insert_sorted cmp x l) <-> z = x \/ In z l.
Proof.
  induction l as [|y l IH]; simpl; [intuition congruence|].
  destruct (cmp x y); simpl; rewrite ?IH; intuition congruence.
Qed.

Lemma sort_In (cmp : A -> A -> comparison) (z : A) (l : list A) :
  In z (JS.sort cmp l) <-> In z l.
Proof.
  induction l as [|x l IH]; simpl; [reflexivity|].
  unfold JS.sort in *. simpl. rewrite insert_sorted_In, IH.
  intuition congruence.
Qed.

Lemma insert_sorted_ext (cmp1 cmp2 : A -> A -> comparison) (x : A)
    (l : list A) :
  (forall y, In y l -> cmp1 x y = cmp2 x y) ->
  JS.insert_sorted cmp1 x l = JS.insert_sorted cmp2 x l.
Proof.
  induction l as [|y l IH]; simpl; intros Hext; [reflexivity|].
  rewrite <- (Hext y) by auto.
  destruct (cmp1 x y); try reflexivity.
  rewrite IH by auto. reflexivity.
Qed.

(** Two comparators that agree on the elements of an array sort it alike. *)
Lemma sort_ext (cmp1 cmp2 : A -> A -> comparison) (l : list A) :
  (forall x y, In x l -> In y l -> cmp1 x y = cmp2 x y) ->
  JS.sort cmp1 l = JS.sort cmp2 l.
Proof.
  induction l as [|x l IH]; intros Hext; [reflexivity|].
  unfold JS.sort in *. simpl.
  rewrite IH by (intros; apply Hext; simpl; auto).
  apply insert_sorted_ext. intros y Hy.
  apply Hext; simpl; [auto|]. right. apply (sort_In cmp2 y l), Hy.
Qed.

Variable cmp : A -> A -> comparison.
Variable le : A -> A -> Prop.
Hypothesis le_trans : forall x y z, le x y -> le y z -> le x z.
Hypothesis cmp_le : forall x y, cmp x y <> Gt -> le x y.
Hypothesis cmp_gt : forall x y, cmp x y = Gt -> le y x.

Lemma insert_sorted_sorted (x : A) (l : list A) :
  StronglySorted le l -> StronglySorted le (JS.insert_sorted cmp x l).
Proof.
  induction 1 as [|y l Hl IH Hy]; simpl.
  - repeat constructor.
  - destruct (cmp x y) eqn:Hxy.
    + assert (Hle : le x y) by (apply cmp_le; congruence).
      constructor; [constructor; assumption|].
      constructor; [exact Hle|].
      eapply Forall_impl; [exact Hy|]. intros z Hz. eapply le_trans; eauto.
    + assert (Hle : le x y) by (apply cmp_le; congruence).
      constructor; [constructor; assumption|].
      constructor; [exact Hle|].
      eapply Forall_impl; [exact Hy|]. intros z Hz. eapply le_trans; eauto.
    + constructor; [exact IH|].
      apply List.Forall_forall. intros z Hz.
      apply insert_sorted_In in Hz as [->|Hz]; [apply cmp_gt, Hxy|].
      rewrite List.Forall_forall in Hy. apply Hy, Hz.
Qed.

Lemma sort_sorted (l : list A) : StronglySorted le (JS.sort cmp l).
Proof.
  induction l as [|x l IH]; [constructor|].
  apply insert_sorted_sorted, IH.
Qed.

Lemma filter_sorted (f : A -> bool) (l : list A) :
  StronglySorted le l -> StronglySorted le (List.filter f l).
Proof.
  induction 1 as [|y l Hl IH Hy]; simpl; [constructor|].
  destruct (f y); [|exact IH].
  constructor; [exact IH|].
  apply List.Forall_forall. intros z Hz. apply filter_In in Hz as [Hz _].
  rewrite List.Forall_forall in Hy. apply Hy, Hz.
Qed.

End SortFacts.

(** ** The order of a query's result *)

Lemma chrono_le_trans (a b c : Appointment) :
  Spec.chrono_le a b -> Spec.chrono_le b c -> Spec.chrono_le a c.
Proof.
  unfold Spec.chrono_le, Spec.str_lt.
  intros [Hab|[Hab Htab]] [Hbc|[Hbc Htbc]].
  - left. eapply compare_lt_trans; eauto.
  - left. rewrite <- Hbc. exact Hab.
  - left. rewrite Hab. exact Hbc.
  - right. split; [congruence|]. eapply str_le_trans; eauto.
Qed.

(** The comparator of [getAppointments], over the code-unit order, decides
    [Spec.chrono_le]. *)
Lemma by_date_time_le (a b : Appointment) :
  by_date_time String.compare a b <> Gt -> Spec.chrono_le a b.
Proof.
  unfold by_date_time, Spec.chrono_le, Spec.str_lt, Spec.str_le.
  destruct (String.eqb_spec (date a) (date b)) as [Heq|Hne]; [auto|].
  intros Hc. left.
  destruct (String.compare (date a) (date b)) eqn:Hd; try congruence.
  apply String.compare_eq_iff in Hd. contradiction.
Qed.

Lemma by_date_time_gt (a b : Appointment) :
  by_date_time String.compare a b = Gt -> Spec.chrono_le b a.
Proof.
  unfold by_date_time, Spec.chrono_le, Spec.str_lt, Spec.str_le.
  destruct (String.eqb_spec (date a) (date b)) as [Heq|Hne]; intros Hc.
  - right. split; [auto|]. rewrite (compare_gt_lt _ _ Hc). discriminate.
  - left. apply compare_gt_lt, Hc.
Qed.

Lemma by_date_time_iso (localeCompare : string -> string -> comparison)
    (a b : Appointment) :
  Spec.collates_iso localeCompare ->
  Spec.iso_appointment a = true -> Spec.iso_appointment b = true ->
  by_date_time localeCompare a b = by_date_time String.compare a b.
Proof.
  unfold Spec.iso_appointment. rewrite !andb_true_iff.
  intros [Hdates Htimes] [Hda Hta] [Hdb Htb]. unfold by_date_time.
  destruct (String.eqb _ _); auto.
Qed.

Lemma filter_Forall {A} (P : A -> Prop) (f : A -> bool) (l : list A) :
  Forall P l -> Forall P (List.filter f l).
Proof.
  rewrite !List.Forall_forall. intros H x Hx. apply filter_In in Hx as [Hx _]. auto.
Qed.

Lemma base_filter_Forall (P : Appointment -> Prop)
    (toLowerCase : string -> string) (filters : Filters)
    (s : Store) :
  Forall P s ->
  Forall P (filter_doctor toLowerCase filters (filter_status filters (filter_date filters s))).
Proof.
  intros Hs. unfold filter_doctor, filter_status, filter_date.
  repeat match goal with
         | |- context [if ?b then _ else _] => destruct b
         end; repeat apply filter_Forall; exact Hs.
Qed.

Lemma getFilteredAppointments_sorted (tab today : string)
    (l : list Appointment) :
  StronglySorted Spec.chrono_le l ->
  StronglySorted Spec.chrono_le (getFilteredAppointments tab today l).
Proof.
  intros Hl. unfold getFilteredAppointments.
  repeat match goal with
         | |- context [if ?b then _ else _] => destruct b
         end;
    try exact Hl; apply filter_sorted; exact Hl.
Qed.

(** C9: on a store whose dates and times are ISO strings, and with a
    [localeCompare] that orders such strings as their code units do, the
    list a query returns, for every filter, tab and reference date, is
    sorted ascending by date and, within a date, by time, under
    lexicographic comparison of the strings. *)
Theorem C9_query_sorted (localeCompare : string -> string -> comparison)
    (toLowerCase : string -> string)
    (filters : Filters) (tab today : string) (s : Store) :
  Spec.collates_iso localeCompare ->
  Forall (fun apt => Spec.iso_appointment apt = true) s ->
  exists result,
    Query localeCompare toLowerCase filters tab today s = (inr result, s) /\
    StronglySorted Spec.chrono_le result.
Proof.
  intros Hlc Hiso. rewrite Query_run. eexists. split; [reflexivity|].
  apply getFilteredAppointments_sorted.
  pose proof (base_filter_Forall _ toLowerCase filters s Hiso) as Hbase.
  rewrite List.Forall_forall in Hbase.
  rewrite (sort_ext (by_date_time localeCompare) (by_date_time String.compare)).
  - apply sort_sorted.
    + exact chrono_le_trans.
    + exact by_date_time_le.
    + exact by_date_time_gt.
  - intros a b Ha Hb. apply by_date_time_iso; auto.
Qed.

(** C9 on the initial store, for the 'upcoming' tab. *)
Lemma C9_query_sorted_witness :
  exists result,
    Query Host.localeCompare Host.toLowerCase no_filters "upcoming" "2024-12-29"
      mockAppointments = (inr result, mockAppointments) /\
    StronglySorted Spec.chrono_le result.
Proof.
  apply (C9_query_sorted Host.localeCompare Host.toLowerCase no_filters "upcoming" "2024-12-29"
           mockAppointments).
  - split; intros s t _ _; reflexivity.
  - repeat (constructor; [reflexivity|]). constructor.
Defined.

(** * Further properties of the service and of the view *)

(** ** Fetching *)

Lemma filter_filter {A} (f g : A -> bool) (l : list A) :
  List.filter f (List.filter g l) = List.filter (fun x => g x && f x) l.
Proof.
  induction l as [|x l IH]; simpl; [reflexivity|].
  destruct (g x); simpl; [|exact IH].
  destruct (f x); congruence.
Qed.

Lemma filter_all {A} (l : list A) : List.filter (fun _ => true) l = l.
Proof. induction l as [|x l IH]; simpl; congruence. Qed.

Lemma filter_date_selects (filters : Filters) (l : list Appointment) :
  filter_date filters l =
  List.filter (fun apt => match f_date filters with
                          | Some d => String.eqb d "" || String.eqb (date apt) d
                          | None => true
                          end) l.
Proof.
  unfold filter_date, truthy_filter. destruct (f_date filters) as [d|]; simpl.
  - destruct (String.eqb d ""); simpl; [symmetry; apply filter_all|reflexivity].
  - symmetry. apply filter_all.
Qed.

Lemma filter_status_selects (filters : Filters) (l : list Appointment) :
  filter_status filters l =
  List.filter (fun apt => match f_status filters with
                          | Some st => String.eqb st "" || String.eqb (status apt) st
                          | None => true
                          end) l.
Proof.
  unfold filter_status, truthy_filter. destruct (f_status filters) as [d|]; simpl.
  - destruct (String.eqb d ""); simpl; [symmetry; apply filter_all|reflexivity].
  - symmetry. apply filter_all.
Qed.

Lemma filter_doctor_selects (toLowerCase : string -> string)
    (filters : Filters) (l : list Appointment) :
  filter_doctor toLowerCase filters l =
  List.filter (fun apt => match f_doctorName filters with
                          | Some n =>
                              String.eqb n "" ||
                              JS.includes (toLowerCase (doctorName apt))
                                          (toLowerCase n)
                          | None => true
                          end) l.
Proof.
  unfold filter_doctor, truthy_filter.
  destruct (f_doctorName filters) as [d|]; simpl.
  - destruct (String.eqb d ""); simpl; [symmetry; apply filter_all|reflexivity].
  - symmetry. apply filter_all.
Qed.

(** The three filters of [getAppointments] amount to one selection. *)
Lemma base_filter_selects (toLowerCase : string -> string)
    (filters : Filters) (s : Store) :
  filter_doctor toLowerCase filters (filter_status filters (filter_date filters s)) =
  List.filter (selects toLowerCase filters) s.
Proof.
  rewrite filter_doctor_selects, filter_status_selects, filter_date_selects.
  rewrite !filter_filter. apply filter_ext. intros apt.
  unfold selects. apply andb_assoc.
Qed.

Lemma selects_selected_by (toLowerCase : string -> string)
    (filters : Filters) (apt : Appointment) :
  selects toLowerCase filters apt = true <-> selected_by toLowerCase filters apt.
Proof.
  unfold selects, selected_by. rewrite !andb_true_iff.
  destruct (f_date filters) as [d|], (f_status filters) as [st|],
    (f_doctorName filters) as [n|];
    rewrite ?orb_true_iff, ?String.eqb_eq; split;
    try (intros [[Hd Hs] Hn]; repeat split; intros x [= <-] Hx;
         solve [ tauto | destruct Hd as [?|?]; tauto
               | destruct Hs as [?|?]; tauto | destruct Hn as [?|?]; tauto ]);
    intros (Hd & Hs & Hn); repeat split;
    repeat match goal with
           | |- ?x = "" \/ _ => destruct (String.eqb_spec x ""); [left; assumption|right]
           end; auto.
Qed.

Lemma insert_sorted_Permutation {A} (cmp : A -> A -> comparison) (x : A)
    (l : list A) :
  Permutation (JS.insert_sorted cmp x l) (x :: l).
Proof.
  induction l as [|y l IH]; simpl; [reflexivity|].
  destruct (cmp x y); try reflexivity.
  rewrite IH. apply perm_swap.
Qed.

Lemma sort_Permutation {A} (cmp : A -> A -> comparison) (l : list A) :
  Permutation (JS.sort cmp l) l.
Proof.
  induction l as [|x l IH]; [reflexivity|].
  unfold JS.sort in *. simpl. rewrite insert_sorted_Permutation, IH.
  reflexivity.
Qed.

(** X1: [getAppointments] never fails and never writes; what it returns is
    a rearrangement of the stored records the filter object selects, each
    as often as it is stored: a record is returned exactly when it is
    stored and passes every filter that is present and not empty (date and
    status by equality, doctor name by containment of the filter's
    lower-case form in the record's, both as [toLowerCase] gives them). *)
Theorem X1_getAppointments_returns_the_selection
    (localeCompare : string -> string -> comparison)
    (toLowerCase : string -> string) (filters : Filters)
    (s : Store) :
  exists result,
    getAppointments localeCompare toLowerCase filters s = (inr result, s) /\
    Permutation result (List.filter (selects toLowerCase filters) s) /\
    forall apt, In apt result <-> In apt s /\ selected_by toLowerCase filters apt.
Proof.
  rewrite getAppointments_run, base_filter_selects.
  eexists. split; [reflexivity|]. split; [apply sort_Permutation|].
  intros apt. rewrite sort_In, filter_In, selects_selected_by. reflexivity.
Qed.



Section Stability.

Context {A : Type} (cmp : A -> A -> comparison) (p : A -> bool).

Hypothesis class_not_gt :
  forall x y, p x = true -> p y = true -> cmp x y <> Gt.



End Stability.



(** ** Looking a record up by its id *)

Lemma find_by_id_split (id0 : string) (s : Store) (i : nat) (apt : Appointment) :
  list_find (fun a => id a = id0) s = Some (i, apt) ->
  exists l1 l2,
    s = (l1 ++ apt :: l2)%list /\ i = length l1 /\ id apt = id0 /\
    Forall (fun a => id a <> id0) l1.
Proof.
  intros (Hi & Hid & Hfirst)%list_find_Some.
  exists (take i s), (drop (S i) s).
  split; [symmetry; apply take_drop_middle, Hi|].
  split. { rewrite length_take. apply lookup_lt_Some in Hi. lia. }
  split; [exact Hid|].
  apply Forall_lookup. intros j a Hj.
  apply lookup_take_Some in Hj as [Hj Hlt]. eapply Hfirst; eauto.
Qed.

Lemma find_by_id_at (id0 : string) (l1 l2 : list Appointment)
    (apt : Appointment) :
  Forall (fun a => id a <> id0) l1 -> id apt = id0 ->
  list_find (fun a => id a = id0) (l1 ++ apt :: l2)%list =
  Some (length l1, apt).
Proof.
  intros Hl1 Hid. rewrite list_find_app_r by (apply list_find_None, Hl1).
  simpl. rewrite decide_True by exact Hid. reflexivity.
Qed.

Lemma update_at (id0 newStatus : string) (l1 l2 : list Appointment)
    (apt : Appointment) :
  Forall (fun a => id a <> id0) l1 -> id apt = id0 ->
  updateAppointmentStatus id0 newStatus (l1 ++ apt :: l2)%list =
  (inr (set_status apt newStatus), (l1 ++ set_status apt newStatus :: l2)%list).
Proof.
  intros Hl1 Hid. rewrite updateAppointmentStatus_run, find_by_id_at by auto.
  f_equal. replace (length l1) with (length l1 + 0)%nat by lia.
  rewrite insert_app_r. reflexivity.
Qed.

Lemma delete_at (id0 : string) (l1 l2 : list Appointment) (apt : Appointment) :
  Forall (fun a => id a <> id0) l1 -> id apt = id0 ->
  deleteAppointment id0 (l1 ++ apt :: l2)%list = (inr true, (l1 ++ l2)%list).
Proof.
  intros Hl1 Hid. rewrite deleteAppointment_run, find_by_id_at by auto.
  rewrite delete_middle. reflexivity.
Qed.

Lemma create_succeeds_appends (Date_parse : string -> JS.number) (now : Z)
    (payload : Payload) (s s' : Store) (apt : Appointment) :
  createAppointment Date_parse now payload s = (inr apt, s') ->
  Spec.first_missing payload = None /\ apt = newApt now payload /\
  s' = (s ++ [apt])%list /\
  List.find (clashes Date_parse payload)
            (List.filter (same_slot_candidate payload) s) = None.
Proof.
  rewrite createAppointment_run.
  destruct (Spec.first_missing payload); [discriminate|].
  destruct (List.find _ _); [discriminate|].
  intros [= <- <-]. auto.
Qed.

(** X4: a record created under an id that no stored record has can be
    reached by that id: a status update then writes the new record, and a
    deletion removes it and gives back the store as it was before the
    creation. *)
Theorem X4_create_then_address_by_id (Date_parse : string -> JS.number)
    (now : Z) (payload : Payload) (s s' : Store) (apt : Appointment)
    (newStatus : string) :
  createAppointment Date_parse now payload s = (inr apt, s') ->
  Forall (fun a => id a <> id apt) s ->
  updateAppointmentStatus (id apt) newStatus s' =
    (inr (set_status apt newStatus), (s ++ [set_status apt newStatus])%list) /\
  deleteAppointment (id apt) s' = (inr true, s).
Proof.
  intros (_ & _ & -> & _)%create_succeeds_appends Hfresh. split.
  - apply update_at; auto.
  - rewrite delete_at by auto. rewrite app_nil_r. reflexivity.
Qed.

(** X4 on the initial store: the 09:30 request is stored, then confirmed
    or deleted by its id. *)
Lemma X4_create_then_address_by_id_witness :
  exists apt s',
    createAppointment Host.Date_parse clock half_past_nine mockAppointments =
      (inr apt, s') /\
    updateAppointmentStatus (id apt) "Confirmed" s' =
      (inr (set_status apt "Confirmed"),
       (mockAppointments ++ [set_status apt "Confirmed"])%list) /\
    deleteAppointment (id apt) s' = (inr true, mockAppointments).
Proof.
  do 2 eexists. split; [rewrite createAppointment_run; simpl; reflexivity|].
  apply (X4_create_then_address_by_id Host.Date_parse clock half_past_nine
           mockAppointments).
  - rewrite createAppointment_run. simpl. reflexivity.
  - repeat (constructor; [vm_compute; discriminate|]). constructor.
Defined.

(** X5: a record created under an id that a stored record already has
    cannot be reached by that id: a status update and a deletion both act
    on the older record, and the new record stays, unchanged, at the end of
    the store. *)
Theorem X5_older_record_shadows_the_new (Date_parse : string -> JS.number)
    (now : Z) (payload : Payload) (s s' : Store) (apt older : Appointment)
    (newStatus : string) :
  createAppointment Date_parse now payload s = (inr apt, s') ->
  In older s -> id older = id apt ->
  (exists written s1,
     updateAppointmentStatus (id apt) newStatus s' =
       (inr written, (s1 ++ [apt])%list) /\
     length s1 = length s /\ In written s1) /\
  (exists s2,
     deleteAppointment (id apt) s' = (inr true, (s2 ++ [apt])%list) /\
     S (length s2) = length s).
Proof.
  intros (_ & _ & -> & _)%create_succeeds_appends Hin Hid.
  destruct (list_find (fun a => id a = id apt) s) as [[i first]|] eqn:Hfind.
  2:{ apply list_find_None in Hfind. rewrite List.Forall_forall in Hfind.
      destruct (Hfind older Hin Hid). }
  apply find_by_id_split in Hfind as (l1 & l2 & -> & _ & Hfirst & Hl1).
  rewrite <- !app_assoc. simpl. split.
  - rewrite update_at by auto.
    exists (set_status first newStatus), (l1 ++ set_status first newStatus :: l2)%list.
    split; [rewrite <- app_assoc; reflexivity|].
    split; [rewrite !length_app; reflexivity|].
    apply in_or_app. right. left. reflexivity.
  - rewrite delete_at by auto.
    exists (l1 ++ l2)%list. split; [rewrite <- app_assoc; reflexivity|].
    rewrite !length_app. simpl. lia.
Qed.

(** X5 on the initial store, after two requests served at the same clock
    value: cancelling by the shared id writes the first of the two. *)
Lemma X5_older_record_shadows_the_new_witness :
  id (newApt clock half_past_nine) = id (newApt clock after_midnight) /\
  exists written s1,
    updateAppointmentStatus (id (newApt clock after_midnight)) "Cancelled"
      (mockAppointments ++ [newApt clock half_past_nine;
                            newApt clock after_midnight])%list =
      (inr written, (s1 ++ [newApt clock after_midnight])%list) /\
    length s1 = 11%nat /\ In written s1.
Proof.
  split; [reflexivity|].
  destruct (X5_older_record_shadows_the_new Host.Date_parse clock
              after_midnight
              (mockAppointments ++ [newApt clock half_past_nine])%list
              (mockAppointments ++ [newApt clock half_past_nine;
                                    newApt clock after_midnight])%list
              (newApt clock after_midnight) (newApt clock half_past_nine)
              "Cancelled")
    as [(written & s1 & Hrun & Hlen & Hin) _].
  - rewrite createAppointment_run. simpl. reflexivity.
  - apply in_or_app. right. left. reflexivity.
  - reflexivity.
  - exists written, s1. auto.
Defined.

(** X6: of two successive status updates of one id the last one wins: the
    outcome of the second is the one it would have had without the first;
    in particular repeating an update changes nothing more. *)
Theorem X6_last_status_update_wins (id0 st1 st2 : string) (s s1 : Store)
    (apt1 : Appointment) :
  updateAppointmentStatus id0 st1 s = (inr apt1, s1) ->
  updateAppointmentStatus id0 st2 s1 = updateAppointmentStatus id0 st2 s.
Proof.
  rewrite (updateAppointmentStatus_run id0 st1 s).
  destruct (list_find (fun a => id a = id0) s) as [[i apt]|] eqn:Hfind;
    [|discriminate].
  apply find_by_id_split in Hfind as (l1 & l2 & -> & -> & Hid & Hl1).
  intros [= <- <-].
  replace (length l1) with (length l1 + 0)%nat by lia.
  rewrite insert_app_r. simpl.
  rewrite (update_at id0 st2 l1 l2 (set_status apt st1)) by auto.
  rewrite (update_at id0 st2 l1 l2 apt) by auto.
  reflexivity.
Qed.

(** X6 on the initial store: confirming then cancelling apt-002 leaves what
    cancelling alone leaves. *)
Lemma X6_last_status_update_wins_witness :
  exists apt1 s1,
    updateAppointmentStatus "apt-002" "Confirmed" mockAppointments =
      (inr apt1, s1) /\
    updateAppointmentStatus "apt-002" "Cancelled" s1 =
    updateAppointmentStatus "apt-002" "Cancelled" mockAppointments.
Proof.
  do 2 eexists. split; [vm_compute; reflexivity|].
  apply (X6_last_status_update_wins "apt-002" "Confirmed" "Cancelled"
           mockAppointments _
           (set_status (mkAppointment "apt-002" "Emma Davis" "2024-12-29"
                          "10:00" (JS.Num 45) "Dr. Michael Chen" "Scheduled"
                          "Video") "Confirmed")).
  vm_compute. reflexivity.
Defined.

(** X7: in a store whose ids are all different, a successful deletion
    makes the id unknown: a status update of it then fails with
    'Appointment not found', a second deletion returns [false], both
    leaving the store alone, and the ids are still all different. *)
Theorem X7_deleted_id_is_gone (id0 newStatus : string) (s s' : Store) :
  NoDup (id <$> s) ->
  deleteAppointment id0 s = (inr true, s') ->
  updateAppointmentStatus id0 newStatus s' =
    (inl (MkError "Appointment not found"), s') /\
  deleteAppointment id0 s' = (inr false, s') /\
  NoDup (id <$> s').
Proof.
  intros Hnodup. rewrite (deleteAppointment_run id0 s).
  destruct (list_find (fun a => id a = id0) s) as [[i apt]|] eqn:Hfind;
    [|discriminate].
  apply find_by_id_split in Hfind as (l1 & l2 & -> & -> & Hid & Hl1).
  rewrite delete_middle. intros [= <-].
  rewrite fmap_app, fmap_cons in Hnodup.
  apply NoDup_app in Hnodup as (Hn1 & Hdisj & Hn2).
  apply NoDup_cons in Hn2 as [Hnot Hn2].
  assert (Hnone : list_find (fun a => id a = id0) (l1 ++ l2)%list = None).
  { apply list_find_None, Forall_app. split; [exact Hl1|].
    apply List.Forall_forall. intros a Ha Hida. apply Hnot.
    rewrite Hid, <- Hida. apply list_elem_of_fmap_2, list_elem_of_In, Ha. }
  rewrite updateAppointmentStatus_run, deleteAppointment_run, Hnone.
  repeat split.
  rewrite fmap_app. apply NoDup_app. repeat split; auto.
  intros x Hx1 Hx2. apply (Hdisj x Hx1). right. exact Hx2.
Qed.

(** X7 on the initial store, deleting apt-004. *)
Lemma X7_deleted_id_is_gone_witness :
  exists s',
    deleteAppointment "apt-004" mockAppointments = (inr true, s') /\
    updateAppointmentStatus "apt-004" "Cancelled" s' =
      (inl (MkError "Appointment not found"), s') /\
    deleteAppointment "apt-004" s' = (inr false, s') /\
    NoDup (id <$> s').
Proof.
  eexists. split; [vm_compute; reflexivity|].
  apply (X7_deleted_id_is_gone "apt-004" "Cancelled" mockAppointments).
  - apply (bool_decide_eq_true_1 (NoDup (id <$> mockAppointments))).
    vm_compute. reflexivity.
  - vm_compute. reflexivity.
Defined.

(** ** More on conflict detection *)

Lemma find_none_iff {A} (f : A -> bool) (l : list A) :
  List.find f l = None <-> forall x, In x l -> f x = false.
Proof.
  split; [apply find_none|].
  intros Hall. destruct (List.find f l) as [x|] eqn:Hfind; [|reflexivity].
  apply find_some in Hfind as [Hin Hf]. rewrite (Hall x Hin) in Hf.
  discriminate.
Qed.

Lemma accepted_iff (Date_parse : string -> JS.number) (now : Z)
    (payload : Payload) (s : Store) (apt : Appointment) :
  (exists s', createAppointment Date_parse now payload s = (inr apt, s')) <->
  Spec.first_missing payload = None /\ apt = newApt now payload /\
  forall x, In x s ->
    same_slot_candidate payload x && clashes Date_parse payload x = false.
Proof.
  rewrite createAppointment_run, find_filter.
  destruct (Spec.first_missing payload).
  { split; [intros [s' H]; discriminate|intros [H _]; discriminate]. }
  destruct (List.find _ s) eqn:Hfind.
  - split; [intros [s' H]; discriminate|].
    intros (_ & _ & Hall). apply find_none_iff in Hall. congruence.
  - split.
    + intros [s' [= <- <-]]. repeat split. apply find_none_iff, Hfind.
    + intros (_ & -> & _). eauto.
Qed.

(** X8: whether a request is accepted does not depend on the order of the
    store: on two stores holding the same records in different orders,
    [createAppointment] stores the same new record or fails on both. *)
Theorem X8_acceptance_ignores_store_order (Date_parse : string -> JS.number)
    (now : Z) (payload : Payload) (s1 s2 : Store) (apt : Appointment) :
  Permutation s1 s2 ->
  (exists s1', createAppointment Date_parse now payload s1 = (inr apt, s1')) <->
  (exists s2', createAppointment Date_parse now payload s2 = (inr apt, s2')).
Proof.
  intros Hperm. rewrite !accepted_iff.
  split; intros (Hvalid & Hapt & Hall); repeat split; auto; intros x Hx;
    apply Hall; [eapply Permutation_in; [symmetry|]; eassumption|].
  eapply Permutation_in; eassumption.
Qed.

(** X8 on the initial store and its reversal. *)
Lemma X8_acceptance_ignores_store_order_witness :
  (exists s1', createAppointment Host.Date_parse clock half_past_nine
                 mockAppointments = (inr (newApt clock half_past_nine), s1')) /\
  (exists s2', createAppointment Host.Date_parse clock half_past_nine
                 (rev mockAppointments) = (inr (newApt clock half_past_nine), s2')).
Proof.
  assert (H : exists s1', createAppointment Host.Date_parse clock half_past_nine
                 mockAppointments = (inr (newApt clock half_past_nine), s1')).
  { eexists. rewrite createAppointment_run. simpl. reflexivity. }
  split; [exact H|].
  apply (X8_acceptance_ignores_store_order Host.Date_parse clock half_past_nine
           mockAppointments (rev mockAppointments)); [|exact H].
  apply Permutation_rev.
Defined.

(** X9: records of other doctors and records whose status is 'Cancelled'
    or 'Completed' never stand in the way: the outcome of
    [createAppointment] is the one it has on the store without them. *)
Theorem X9_other_doctors_and_closed_records_never_block
    (Date_parse : string -> JS.number) (now : Z) (payload : Payload)
    (s : Store) :
  fst (createAppointment Date_parse now payload s) =
  fst (createAppointment Date_parse now payload
         (List.filter
            (fun apt => JS.strict_eq (doctorName apt) (p_doctorName payload) &&
                        negb (String.eqb (status apt) "Cancelled") &&
                        negb (String.eqb (status apt) "Completed")) s)).
Proof.
  rewrite !createAppointment_run.
  destruct (Spec.first_missing payload); [reflexivity|].
  rewrite filter_implied.
  - destruct (List.find _ _); reflexivity.
  - intros x. unfold same_slot_candidate. rewrite !andb_true_iff. tauto.
Qed.

(** X10: a request whose date and time do not parse is never found in
    conflict: once the six required fields are there it is stored, whatever
    the store holds; and a stored record whose own date and time do not
    parse never blocks a request. *)
Theorem X10_invalid_dates_escape_the_check (Date_parse : string -> JS.number)
    (now : Z) (payload : Payload) (s : Store) :
  Spec.first_missing payload = None ->
  Date_parse (JS.interpolate (p_date payload) +:+ "T" +:+
              JS.interpolate (p_time payload)) = JS.NaN ->
  createAppointment Date_parse now payload s =
    (inr (newApt now payload), (s ++ [newApt now payload])%list) /\
  forall (request : Payload) (apt : Appointment),
    Date_parse (date apt +:+ "T" +:+ time apt) = JS.NaN ->
    clashes Date_parse request apt = false.
Proof.
  intros Hvalid Hnan. split.
  - rewrite createAppointment_run, Hvalid.
    replace (List.find _ _) with (@None Appointment); [reflexivity|].
    symmetry. apply find_none_iff. intros x _.
    unfold clashes, newStart. rewrite Hnan. reflexivity.
  - intros request apt Hapt. unfold clashes, JS.gt.
    assert (Hs : existingStart Date_parse apt = JS.NaN)
      by (unfold existingStart; rewrite Hapt; reflexivity).
    assert (He : existingEnd Date_parse apt = JS.NaN)
      by (unfold existingEnd; rewrite Hs; reflexivity).
    rewrite Hs, He, lt_NaN_r. reflexivity.
Qed.

(** X10 on the initial store: a request for 'someday' at 'noon' with
    Dr. Sarah Johnson is stored. *)
Lemma X10_invalid_dates_escape_the_check_witness :
  createAppointment Host.Date_parse clock
    (form_payload "Ann Lee" "someday" "noon" 30 "Dr. Sarah Johnson" "Video")
    mockAppointments =
  (inr (newApt clock (form_payload "Ann Lee" "someday" "noon" 30
                        "Dr. Sarah Johnson" "Video")),
   (mockAppointments ++
      [newApt clock (form_payload "Ann Lee" "someday" "noon" 30
                       "Dr. Sarah Johnson" "Video")])%list).
Proof.
  apply (X10_invalid_dates_escape_the_check Host.Date_parse clock
           (form_payload "Ann Lee" "someday" "noon" 30 "Dr. Sarah Johnson"
              "Video") mockAppointments); reflexivity.
Defined.

(** ** Invariants of the store along a run *)

Lemma newApt_complete (now : Z) (payload : Payload) :
  Spec.first_missing payload = None -> complete (newApt now payload) = true.
Proof.
  unfold Spec.first_missing, complete.
  destruct payload as [pid pn pd pt pdur pdoc pm pst]; simpl.
  destruct pn as [pn|], pd as [pd|], pt as [pt|], pdur as [[z|]|],
    pdoc as [pdoc|], pm as [pm|]; simpl; try discriminate;
    repeat match goal with
           | |- context [String.eqb ?x ""] => destruct (String.eqb x "")
           | |- context [Z.eqb ?x 0] => destruct (Z.eqb x 0)
           end; simpl; try discriminate; reflexivity.
Qed.

Lemma step_complete (Date_parse : string -> JS.number) (op : Op)
    (s s' : Store) :
  Forall (fun apt => complete apt = true) s ->
  run_op Date_parse op s = Some s' ->
  Forall (fun apt => complete apt = true) s'.
Proof.
  intros Hs. destruct op as [now payload|id0 newStatus|id0]; simpl.
  - destruct (createAppointment _ _ _ _) as [[e|apt] s1] eqn:Hrun; [discriminate|].
    intros [= <-].
    apply create_succeeds_appends in Hrun as (Hvalid & -> & -> & _).
    apply Forall_app. split; [exact Hs|].
    constructor; [apply newApt_complete, Hvalid|constructor].
  - rewrite updateAppointmentStatus_run.
    destruct (list_find _ s) as [[i apt]|] eqn:Hfind; [|discriminate].
    intros [= <-]. apply list_find_Some in Hfind as (Hi & _ & _).
    apply Forall_insert; [exact Hs|].
    rewrite List.Forall_forall in Hs.
    apply (Hs apt), list_elem_of_In, list_elem_of_lookup. eauto.
  - rewrite deleteAppointment_run.
    destruct (list_find _ s) as [[i apt]|]; intros [= <-]; [|exact Hs].
    apply Forall_delete, Hs.
Qed.

(** X11: the service keeps stored records complete: if every record of the
    store has a non-empty patient name, date, time, doctor name and mode and
    a duration that is a non-zero integer, then so has every record after
    any sequence of successful creations, status updates and deletions. *)
Theorem X11_records_stay_complete (Date_parse : string -> JS.number)
    (ops : list Op) (s s' : Store) :
  Forall (fun apt => complete apt = true) s ->
  run Date_parse ops s = Some s' ->
  Forall (fun apt => complete apt = true) s'.
Proof.
  revert s. induction ops as [|op ops IH]; simpl; intros s Hs Hrun.
  - injection Hrun as <-. exact Hs.
  - destruct (run_op Date_parse op s) as [s1|] eqn:Hstep; [|discriminate].
    apply (IH s1); [|exact Hrun]. eapply step_complete; eauto.
Qed.

(** X11 on the initial store, along a run of five calls. *)
Lemma X11_records_stay_complete_witness :
  exists s',
    run Host.Date_parse ordinary_day mockAppointments = Some s' /\
    Forall (fun apt => complete apt = true) s'.
Proof.
  eexists. split; [vm_compute; reflexivity|].
  apply (X11_records_stay_complete Host.Date_parse ordinary_day
           mockAppointments).
  - repeat (constructor; [reflexivity|]). constructor.
  - vm_compute. reflexivity.
Defined.

(** Reading back the decimal numeral of a number. *)
Lemma digit_pretty_N_char (m : N) :
  (m < 10)%N -> Host.digit (pretty_N_char m) = Some (Z.of_N m).
Proof.
  intros Hm.
  assert (m = 0 \/ m = 1 \/ m = 2 \/ m = 3 \/ m = 4 \/ m = 5 \/ m = 6 \/
          m = 7 \/ m = 8 \/ m = 9)%N as Hcases by lia.
  repeat (destruct Hcases as [->|Hcases]; [reflexivity|]).
  subst. reflexivity.
Qed.

Lemma digits_pretty_N_go (x : N) :
  exists k, 0 <= k /\
    forall s acc,
      Host.digits (pretty_N_go x s) acc =
      Host.digits s (acc * 10 ^ k + Z.of_N x).
Proof.
  induction (N.lt_wf_0 x) as [x _ IH].
  assert (x = 0 \/ 0 < x)%N as [->|Hpos] by lia.
  - exists 0. split; [lia|]. intros s acc. rewrite pretty_N_go_0.
    f_equal. simpl. lia.
  - destruct (IH (x `div` 10)%N) as (k & Hk & Hgo).
    { apply N.div_lt; lia. }
    exists (k + 1). split; [lia|]. intros s acc.
    rewrite pretty_N_go_step, Hgo by exact Hpos. simpl.
    rewrite digit_pretty_N_char by (apply N.mod_lt; lia).
    f_equal. rewrite Z.pow_add_r, Z.pow_1_r by lia.
    rewrite (N.div_mod x 10) at 3 by lia.
    rewrite N2Z.inj_add, N2Z.inj_mul. simpl Z.of_N. lia.
Qed.

Lemma digits_pretty (n : Z) : 0 <= n -> Host.digits (pretty n) 0 = Some n.
Proof.
  destruct n as [|p|p]; [reflexivity| |lia]. intros _.
  unfold pretty, pretty_Z, pretty, pretty_positive, pretty, pretty_N.
  rewrite decide_False by discriminate.
  destruct (digits_pretty_N_go (N.pos p)) as (k & _ & Hgo).
  rewrite Hgo. reflexivity.
Qed.

Lemma generated_id_inj (m n : Z) :
  "apt-" +:+ pretty m = "apt-" +:+ pretty n -> m = n.
Proof.
  intros H. apply (inj pretty). cbv [String.append] in H. congruence.
Qed.

Lemma step_ids (Date_parse : string -> JS.number) (op : Op) (s s' : Store) :
  (forall now payload, op <> Create now payload) ->
  run_op Date_parse op s = Some s' ->
  sublist (id <$> s') (id <$> s).
Proof.
  intros Hop. destruct op as [now payload|id0 newStatus|id0]; simpl.
  - destruct (Hop now payload eq_refl).
  - rewrite updateAppointmentStatus_run.
    destruct (list_find _ s) as [[i apt]|] eqn:Hfind; [|discriminate].
    intros [= <-]. apply list_find_Some in Hfind as (Hi & _ & _).
    rewrite list_fmap_insert. simpl.
    rewrite list_insert_id; [reflexivity|].
    rewrite list_lookup_fmap, Hi. reflexivity.
  - rewrite deleteAppointment_run.
    destruct (list_find _ s) as [[i apt]|]; intros [= <-]; [|reflexivity].
    rewrite list_fmap_delete. apply sublist_delete.
Qed.

Lemma minted_before_ids (t : Z) (s s' : Store) :
  sublist (id <$> s') (id <$> s) -> minted_before t s -> minted_before t s'.
Proof.
  intros Hsub Hs apt n Hin Hn Hid.
  assert (Hx : id apt ∈ id <$> s).
  { eapply elem_of_sublist; [|exact Hsub].
    apply list_elem_of_fmap_2, list_elem_of_In, Hin. }
  apply list_elem_of_fmap in Hx as (old & Hidold & Hold).
  apply (Hs old n); [apply list_elem_of_In, Hold|exact Hn|congruence].
Qed.

Lemma minted_beforeb_sound (t : Z) (s : Store) :
  0 <= t -> forallb (minted_beforeb t) s = true -> minted_before t s.
Proof.
  intros Ht Hall apt n Hin Hn Hid.
  rewrite forallb_forall in Hall. specialize (Hall apt Hin).
  unfold minted_beforeb in Hall. rewrite Hid in Hall.
  cbv [String.append] in Hall.
  rewrite digits_pretty in Hall by lia.
  apply Z.ltb_lt in Hall. lia.
Qed.

(** X12: ids stay all different as long as no two creations read the same
    clock value: from a store whose ids are all different and none of which
    is one the service generates at clock value [t] or later, after any
    sequence of successful calls whose creations read strictly increasing
    clock values from [t] on and carry no id in their payload, the ids are
    all different. *)
Theorem X12_ids_unique_while_clock_increases
    (Date_parse : string -> JS.number) (ops : list Op) (t : Z) (s s' : Store) :
  NoDup (id <$> s) ->
  minted_before t s ->
  clock_increases t ops = true ->
  run Date_parse ops s = Some s' ->
  NoDup (id <$> s').
Proof.
  revert t s. induction ops as [|op ops IH]; simpl; intros t s Hnodup Hold Hclock Hrun.
  - injection Hrun as <-. exact Hnodup.
  - destruct (run_op Date_parse op s) as [s1|] eqn:Hstep; [|discriminate].
    destruct op as [now payload|id0 newStatus|id0].
    + apply andb_true_iff in Hclock as [Hclock Hrest].
      apply andb_true_iff in Hclock as [Hnow Hnoid].
      apply Z.leb_le in Hnow. apply bool_decide_eq_true in Hnoid.
      simpl in Hstep.
      destruct (createAppointment _ _ _ _) as [[e|apt] s2] eqn:Hcreate;
        [discriminate|].
      injection Hstep as ->.
      apply create_succeeds_appends in Hcreate as (_ & -> & -> & _).
      assert (Hid : id (newApt now payload) = "apt-" +:+ pretty now).
      { unfold newApt. simpl. rewrite Hnoid. reflexivity. }
      apply (IH (now + 1) (s ++ [newApt now payload])%list); auto.
      * rewrite fmap_app. apply NoDup_app. split; [exact Hnodup|].
        split; [|apply NoDup_singleton].
        intros x Hx Hnew. apply list_elem_of_singleton in Hnew. subst x.
        apply list_elem_of_fmap in Hx as (old & Hidold & Holdin).
        apply (Hold old now); [apply list_elem_of_In, Holdin|lia|congruence].
      * intros apt n Hin Hn. apply in_app_or in Hin as [Hin|[<-|[]]].
        -- apply (Hold apt n Hin). lia.
        -- rewrite Hid. intros Heq. apply generated_id_inj in Heq. lia.
    + assert (Hsub : sublist (id <$> s1) (id <$> s))
        by (eapply step_ids; [|exact Hstep]; intros; discriminate).
      apply (IH t s1); auto.
      * eapply sublist_NoDup; eauto.
      * eapply minted_before_ids; eauto.
    + assert (Hsub : sublist (id <$> s1) (id <$> s))
        by (eapply step_ids; [|exact Hstep]; intros; discriminate).
      apply (IH t s1); auto.
      * eapply sublist_NoDup; eauto.
      * eapply minted_before_ids; eauto.
Qed.

(** X12 on the initial store, along a run of five calls whose two
    creations read the clock one millisecond apart. *)
Lemma X12_ids_unique_while_clock_increases_witness :
  exists s',
    run Host.Date_parse ordinary_day mockAppointments = Some s' /\
    NoDup (id <$> s').
Proof.
  eexists. split; [vm_compute; reflexivity|].
  apply (X12_ids_unique_while_clock_increases Host.Date_parse ordinary_day
           clock mockAppointments).
  - apply (bool_decide_eq_true_1 (NoDup (id <$> mockAppointments))).
    vm_compute. reflexivity.
  - apply minted_beforeb_sound; [unfold clock; lia|].
    vm_compute. reflexivity.
  - vm_compute. reflexivity.
  - vm_compute. reflexivity.
Defined.

(** ** The tabs, again *)

Lemma existsb_active (st : string) :
  existsb (String.eqb st) ["Scheduled"; "Upcoming"; "Confirmed"] =
  Spec.active st.
Proof.
  unfold Spec.active. simpl.
  destruct (String.eqb st "Scheduled"), (String.eqb st "Upcoming"),
    (String.eqb st "Confirmed"); reflexivity.
Qed.

(** X13: every record of the list is in exactly one of three classes: shown
    by the 'upcoming' tab only, shown by the 'past' tab only, or shown by
    neither; the records that neither shows are exactly those dated the
    reference date or later whose status is outside the active set and is
    not 'Completed' (the cancelled ones, for the five statuses in use). *)
Theorem X13_upcoming_and_past_are_disjoint (today : string)
    (l : list Appointment) (apt : Appointment) :
  In apt l ->
  (In apt (getFilteredAppointments "upcoming" today l) /\
   ~ In apt (getFilteredAppointments "past" today l) /\
   ~ (Spec.str_le today (date apt) /\ Spec.active (status apt) = false /\
      status apt <> "Completed")) \/
  (~ In apt (getFilteredAppointments "upcoming" today l) /\
   In apt (getFilteredAppointments "past" today l) /\
   ~ (Spec.str_le today (date apt) /\ Spec.active (status apt) = false /\
      status apt <> "Completed")) \/
  (~ In apt (getFilteredAppointments "upcoming" today l) /\
   ~ In apt (getFilteredAppointments "past" today l) /\
   Spec.str_le today (date apt) /\ Spec.active (status apt) = false /\
   status apt <> "Completed").
Proof.
  intros Hin. rewrite tab_upcoming, tab_past, !filter_In, existsb_active.
  pose proof (str_ge_le (date apt) today) as Hge.
  assert (Hact : Spec.active (status apt) = true -> status apt <> "Completed").
  { intros H Hc. rewrite Hc in H. discriminate. }
  unfold JS.str_ge, JS.str_lt in *.
  destruct (String.ltb (date apt) today); simpl in *.
  { right. left. split; [intros [_ H]; discriminate|]. split; [auto|].
    intros [H _]. apply Hge in H. discriminate. }
  assert (Hle : Spec.str_le today (date apt)) by (apply Hge; reflexivity).
  destruct (String.eqb_spec (status apt) "Completed") as [Hc|Hc].
  { right. left. split; [intros [_ H]; apply Hact in H; contradiction|].
    split; [auto|]. intros (_ & _ & H). contradiction. }
  destruct (Spec.active (status apt)).
  - left. split; [auto|]. split; [intros [_ H]; discriminate|].
    intros (_ & H & _). discriminate.
  - right. right. repeat split; try (intros [_ H]; discriminate); auto.
Qed.

(** X13 on the initial store with reference date 2024-12-25: the cancelled
    apt-008 of 2024-12-27 is in neither tab. *)
Lemma X13_upcoming_and_past_are_disjoint_witness :
  ~ In (mkAppointment "apt-008" "Sarah Taylor" "2024-12-27" "11:00" (JS.Num 30)
          "Dr. Michael Chen" "Cancelled" "In-person")
       (getFilteredAppointments "upcoming" "2024-12-25" mockAppointments) /\
  ~ In (mkAppointment "apt-008" "Sarah Taylor" "2024-12-27" "11:00" (JS.Num 30)
          "Dr. Michael Chen" "Cancelled" "In-person")
       (getFilteredAppointments "past" "2024-12-25" mockAppointments).
Proof.
  assert (Hin : In (mkAppointment "apt-008" "Sarah Taylor" "2024-12-27" "11:00"
                      (JS.Num 30) "Dr. Michael Chen" "Cancelled" "In-person")
                   mockAppointments) by (simpl; tauto).
  assert (Hneither :
            Spec.str_le "2024-12-25" "2024-12-27" /\
            Spec.active "Cancelled" = false /\ "Cancelled" <> "Completed")
    by (repeat split; discriminate).
  destruct (X13_upcoming_and_past_are_disjoint "2024-12-25" mockAppointments
              _ Hin) as [(_ & _ & Hno)|[(_ & _ & Hno)|(Hup & Hpast & _)]].
  - destruct (Hno Hneither).
  - destruct (Hno Hneither).
  - split; assumption.
Defined.

(** ** The buttons of a card *)

(** X14: a card offers status changes only for a record whose status is in
    the active set, only to 'Confirmed', 'Cancelled' or 'Completed', and
    never to the status the record has; when the record is the first of the
    store with its id, pressing such a button succeeds and keeps the store
    free of double bookings within a date. *)
Theorem X14_card_buttons_keep_the_schedule (Date_parse : string -> JS.number)
    (s : Store) (i : nat) (apt : Appointment) (newStatus : string) :
  Spec.no_double_booking_same_date Date_parse s ->
  list_find (fun a => id a = id apt) s = Some (i, apt) ->
  In newStatus (card_status_buttons apt) ->
  Spec.active (status apt) = true /\
  (newStatus = "Confirmed" \/ newStatus = "Cancelled" \/ newStatus = "Completed") /\
  newStatus <> status apt /\
  exists s',
    run_op Date_parse (UpdateStatus (id apt) newStatus) s = Some s' /\
    Spec.no_double_booking_same_date Date_parse s'.
Proof.
  intros Hinv Hfind Hbutton.
  assert (Hfacts : Spec.active (status apt) = true /\
            (newStatus = "Confirmed" \/ newStatus = "Cancelled" \/
             newStatus = "Completed") /\ newStatus <> status apt).
  { unfold card_status_buttons in Hbutton. unfold Spec.active.
    simpl existsb in Hbutton.
    destruct (String.eqb_spec (status apt) "Scheduled") as [Hs|Hs];
      destruct (String.eqb_spec (status apt) "Confirmed") as [Hc|Hc];
      destruct (String.eqb_spec (status apt) "Upcoming") as [Hu|Hu];
      simpl in Hbutton; try congruence;
      decompose [or] Hbutton; try contradiction; subst newStatus;
      repeat split; auto; congruence. }
  destruct Hfacts as (Hact & Htarget & Hne). repeat split; auto.
  assert (Hrun : exists s', run_op Date_parse (UpdateStatus (id apt) newStatus) s
                            = Some s').
  { simpl. rewrite updateAppointmentStatus_run, Hfind. eauto. }
  destruct Hrun as [s' Hrun]. exists s'. split; [exact Hrun|].
  eapply update_preserves; eauto.
  simpl. rewrite Hfind, Hact. apply andb_false_r.
Qed.

(** X14 on the initial store: the Confirm button of apt-002. *)
Lemma X14_card_buttons_keep_the_schedule_witness :
  exists s',
    run_op Host.Date_parse (UpdateStatus "apt-002" "Confirmed") mockAppointments
      = Some s' /\
    Spec.no_double_booking_same_date Host.Date_parse s'.
Proof.
  apply (X14_card_buttons_keep_the_schedule Host.Date_parse mockAppointments
           1%nat
           (mkAppointment "apt-002" "Emma Davis" "2024-12-29" "10:00"
              (JS.Num 45) "Dr. Michael Chen" "Scheduled" "Video")
           "Confirmed").
  - apply pairwise_no_double_booking_same_date. vm_compute. reflexivity.
  - vm_compute. reflexivity.
  - left. reflexivity.
Defined.

(** ** The view and the store *)

Section ViewFacts.

Variable Date_parse : string -> JS.number.
Variable localeCompare : string -> string -> comparison.
Variable toLowerCase : string -> string.
Variable parseInt : string -> JS.number.

Lemma fetchAppointments_run (filters : Filters) (v : View) (s : Store) :
  fetchAppointments localeCompare toLowerCase filters v s =
  (mkView (JS.sort (by_date_time localeCompare)
             (List.filter (selects toLowerCase filters) s))
          (selectedDate v) (selectedTab v) (showCreateModal v) false None
          (formData v),
   s).
Proof.
  unfold fetchAppointments. rewrite getAppointments_run, base_filter_selects.
  reflexivity.
Qed.

Lemma in_sync_iff (v : View) (s : Store) :
  in_sync localeCompare toLowerCase v s <->
  appointments v = JS.sort (by_date_time localeCompare)
                     (List.filter (selects toLowerCase (selected_filters v)) s).
Proof.
  unfold in_sync. rewrite getAppointments_run, base_filter_selects. simpl.
  split; [intros [= H]; auto|intros ->; reflexivity].
Qed.

(** Fetching with the filter of the selected date puts the view in step
    with the store. *)
Lemma fetch_selected_in_sync (v : View) (s : Store) :
  in_sync localeCompare toLowerCase
    (fst (fetchAppointments localeCompare toLowerCase (selected_filters v) v s)) s.
Proof. rewrite fetchAppointments_run. apply in_sync_iff. reflexivity. Qed.

Lemma selects_date_click (d : string) (apt : Appointment) :
  selects toLowerCase (selected_filters (setSelectedDate (Some d) initial_view)) apt =
  selects toLowerCase {| f_date := Some d; f_status := None; f_doctorName := None |} apt.
Proof.
  unfold selected_filters, selects. simpl.
  destruct (String.eqb d "") eqn:Hd; simpl; rewrite ?Hd; reflexivity.
Qed.

Lemma handle_in_sync (ev : Event) (v : View) (s : Store) :
  in_sync localeCompare toLowerCase v s ->
  in_sync localeCompare toLowerCase
    (fst (handle Date_parse localeCompare toLowerCase parseInt ev v s))
    (snd (handle Date_parse localeCompare toLowerCase parseInt ev v s)).
Proof.
  intros Hsync. destruct ev as [d| |key| | |fd|id0 newStatus|now|id0 confirmed];
    unfold handle; try exact Hsync.
  - unfold handleDateClick. rewrite fetchAppointments_run. simpl.
    apply in_sync_iff. simpl. f_equal. apply filter_ext. intros apt.
    symmetry. apply selects_date_click.
  - unfold clearDateFilter. rewrite fetchAppointments_run.
    apply in_sync_iff. reflexivity.
  - unfold handleStatusUpdate. rewrite updateAppointmentStatus_run.
    destruct (list_find _ s) as [[i apt]|]; [|exact Hsync].
    apply fetch_selected_in_sync.
  - unfold handleCreateAppointment. rewrite createAppointment_run.
    destruct (Spec.first_missing _); [exact Hsync|].
    destruct (List.find _ _); [exact Hsync|].
    rewrite fetchAppointments_run. apply in_sync_iff. reflexivity.
  - unfold handleDeleteAppointment. destruct confirmed; [|exact Hsync].
    rewrite deleteAppointment_run.
    destruct (list_find _ s) as [[i apt]|]; apply fetch_selected_in_sync.
Qed.

Lemma handle_all_in_sync (evs : list Event) (v : View) (s : Store) :
  in_sync localeCompare toLowerCase v s ->
  in_sync localeCompare toLowerCase
    (fst (handle_all Date_parse localeCompare toLowerCase parseInt evs v s))
    (snd (handle_all Date_parse localeCompare toLowerCase parseInt evs v s)).
Proof.
  revert v s. induction evs as [|ev evs IH]; simpl; intros v s Hsync;
    [exact Hsync|].
  pose proof (handle_in_sync ev v s Hsync) as Hstep.
  destruct (handle Date_parse localeCompare toLowerCase parseInt ev v s) as [v1 s1].
  apply IH, Hstep.
Qed.

End ViewFacts.

(** X15: the view stays in step with the store: once the component is
    mounted, after any sequence of date clicks, tab selections, form edits,
    status clicks, submissions and deletions, succeeding or failing, the
    list the view holds is the list [getAppointments] returns on the
    current store for the selected date. *)
Theorem X15_view_in_step_with_store (Date_parse : string -> JS.number)
    (localeCompare : string -> string -> comparison)
    (toLowerCase : string -> string)
    (parseInt : string -> JS.number) (evs : list Event) (s : Store) :
  in_sync localeCompare toLowerCase
    (fst (handle_all Date_parse localeCompare toLowerCase parseInt evs
            (fst (mounted localeCompare toLowerCase s))
            (snd (mounted localeCompare toLowerCase s))))
    (snd (handle_all Date_parse localeCompare toLowerCase parseInt evs
            (fst (mounted localeCompare toLowerCase s))
            (snd (mounted localeCompare toLowerCase s)))).
Proof.
  apply handle_all_in_sync. unfold mounted.
  rewrite fetchAppointments_run. apply in_sync_iff. reflexivity.
Qed.

Lemma selects_selected_date (toLowerCase : string -> string) (v : View)
    (apt : Appointment) :
  selects toLowerCase (selected_filters v) apt = true <->
  selectedDate v = None \/ selectedDate v = Some "" \/
  selectedDate v = Some (date apt).
Proof.
  unfold selects, selected_filters, JS.truthy, JS.of_string.
  destruct (selectedDate v) as [d|].
  - destruct (String.eqb_spec d "") as [Hd|Hd];
      cbn [negb f_date f_status f_doctorName no_filters andb].
    + split; [intros _; right; left; congruence|reflexivity].
    + rewrite !andb_true_r, orb_true_iff, !String.eqb_eq. split.
      * intros [H|H]; [contradiction|]. right. right. congruence.
      * intros [H|[H|H]]; [discriminate| |]; [left|right]; congruence.
  - cbn [negb f_date f_status f_doctorName no_filters andb]. tauto.
Qed.

(** X16: a submission of the creation form that the service rejects leaves
    the store, the list, the form and the modal as they are and shows the
    message of the error; one that the service accepts stores a record with
    the generated id and the status 'Scheduled', closes the modal, resets
    the form, clears the error, and the new record is in the list exactly
    when no date is selected or the selected date is its date. *)
Theorem X16_submission_outcomes (Date_parse : string -> JS.number)
    (localeCompare : string -> string -> comparison)
    (toLowerCase : string -> string)
    (parseInt : string -> JS.number) (now : Z) (v : View) (s : Store) :
  match createAppointment Date_parse now
          (form_to_payload parseInt (formData v)) s with
  | (inl err, _) =>
      handleCreateAppointment Date_parse localeCompare toLowerCase parseInt now v s =
        (setError (Some (message err)) v, s)
  | (inr apt, s') =>
      exists v',
        handleCreateAppointment Date_parse localeCompare toLowerCase parseInt now v s =
          (v', s') /\
        id apt = "apt-" +:+ pretty now /\ status apt = "Scheduled" /\
        showCreateModal v' = false /\ formData v' = initial_formData /\
        error v' = None /\ selectedDate v' = selectedDate v /\
        (In apt (appointments v') <->
         selectedDate v = None \/ selectedDate v = Some "" \/
         selectedDate v = Some (date apt))
  end.
Proof.
  unfold handleCreateAppointment.
  change (formData (setError None v)) with (formData v).
  rewrite createAppointment_run.
  destruct (Spec.first_missing _); [reflexivity|].
  destruct (List.find _ _); [reflexivity|].
  rewrite fetchAppointments_run. eexists. split; [reflexivity|].
  repeat (split; [reflexivity|]).
  cbn [appointments].
  rewrite sort_In, filter_In, selects_selected_date.
  cbn [selectedDate setFormData setShowCreateModal setError].
  split; [tauto|].
  intros Hcase. split; [|exact Hcase].
  apply in_or_app. right. left. reflexivity.
Qed.

(** ** The calendar *)

Lemma days_from_civil_day (y m d : Z) :
  Host.days_from_civil y m d = Host.days_from_civil y m 1 + (d - 1).
Proof. unfold Host.days_from_civil. lia. Qed.

(** X17: the cells of the calendar: [firstDay] empty cells come first, then
    one cell per day, so that day [d] is the cell of index
    [firstDay + d - 1]; with [firstDay] the weekday of the first of the
    month, as the widget takes it, that index modulo 7, the column of the
    cell under the seven weekday headers, is the weekday of day [d]. *)
Theorem X17_calendar_cells (firstDay daysInMonth day : Z) :
  0 <= firstDay -> 1 <= day <= daysInMonth ->
  length (calendar_days firstDay daysInMonth) =
    Z.to_nat (firstDay + daysInMonth) /\
  calendar_days firstDay daysInMonth !! Z.to_nat (firstDay + day - 1) =
    Some (Some day) /\
  (forall i, (i < Z.to_nat firstDay)%nat ->
     calendar_days firstDay daysInMonth !! i = Some None) /\
  (forall currentYear currentMonth,
     firstDay = host_getDay currentYear currentMonth 1 ->
     (firstDay + day - 1) mod 7 = host_getDay currentYear currentMonth day).
Proof.
  intros Hfirst Hday. unfold calendar_days. repeat split.
  - rewrite length_app, length_replicate, length_fmap, length_seqZ. lia.
  - rewrite lookup_app_r by (rewrite length_replicate; lia).
    rewrite length_replicate, list_lookup_fmap.
    replace (Z.to_nat (firstDay + day - 1) - Z.to_nat firstDay)%nat
      with (Z.to_nat (day - 1)) by lia.
    rewrite lookup_seqZ_lt by lia. simpl. do 2 f_equal. lia.
  - intros i Hi. rewrite lookup_app_l by (rewrite length_replicate; lia).
    apply lookup_replicate_2. exact Hi.
  - intros y m ->. unfold host_getDay.
    rewrite (days_from_civil_day y (m + 1) day).
    rewrite <- Z.add_sub_assoc, Zplus_mod_idemp_l. f_equal. lia.
Qed.

(** X17 for December 2024, which starts on a Sunday: the 29th is the cell
    of index 28, in column 0. *)
Lemma X17_calendar_cells_witness :
  host_getDay 2024 11 1 = 0 /\ host_daysInMonth 2024 11 = 31 /\
  calendar_days 0 31 !! 28%nat = Some (Some 29) /\
  host_getDay 2024 11 29 = 0.
Proof.
  split; [reflexivity|]. split; [reflexivity|].
  destruct (X17_calendar_cells 0 31 29) as (_ & Hcell & _ & Hcol); [lia|lia|].
  split; [exact Hcell|].
  rewrite <- (Hcol 2024 11); reflexivity.
Defined.

Lemma numeral_four (s : string) :
  numeral 4 s = true ->
  exists c1 c2 c3 c4,
    s = String c1 (String c2 (String c3 (String c4 EmptyString))) /\
    Spec.is_digit c1 = true /\ Spec.is_digit c2 = true /\
    Spec.is_digit c3 = true /\ Spec.is_digit c4 = true.
Proof.
  unfold numeral. rewrite andb_true_iff.
  destruct s as [|c1 [|c2 [|c3 [|c4 [|c5 s]]]]]; simpl; intros [Hlen Hd];
    try discriminate.
  rewrite !andb_true_iff in Hd. exists c1, c2, c3, c4. tauto.
Qed.

Lemma numeral_two (s : string) :
  numeral 2 s = true ->
  exists c1 c2,
    s = String c1 (String c2 EmptyString) /\
    Spec.is_digit c1 = true /\ Spec.is_digit c2 = true.
Proof.
  unfold numeral. rewrite andb_true_iff.
  destruct s as [|c1 [|c2 [|c3 s]]]; simpl; intros [Hlen Hd];
    try discriminate.
  rewrite !andb_true_iff in Hd. exists c1, c2. tauto.
Qed.

Lemma forallb_seqZ (f : Z -> bool) (lo len x : Z) :
  forallb f (seqZ lo len) = true -> lo <= x < lo + len -> f x = true.
Proof.
  intros Hall Hx. rewrite forallb_forall in Hall.
  apply Hall, list_elem_of_In, elem_of_seqZ. exact Hx.
Qed.

Lemma year_numeral (y : Z) :
  1000 <= y <= 9999 -> numeral 4 (pretty y) = true.
Proof.
  intros Hy. apply (forallb_seqZ (fun y => numeral 4 (pretty y)) 1000 9000);
    [vm_compute; reflexivity|lia].
Qed.

Lemma padded_numeral (n : Z) :
  1 <= n <= 31 -> numeral 2 (padStart 2 "0" (pretty n)) = true.
Proof.
  intros Hn.
  apply (forallb_seqZ (fun n => numeral 2 (padStart 2 "0" (pretty n))) 1 31);
    [vm_compute; reflexivity|lia].
Qed.

(** X18: the date string of a day cell has the layout of the stored dates:
    for a four-digit year, a month from 0 to 11 and a day from 1 to 31 it is
    four digits, a dash, two digits, a dash, two digits, month and day
    padded with a zero. *)
Theorem X18_dateStr_is_iso (currentYear currentMonth day : Z) :
  1000 <= currentYear <= 9999 -> 0 <= currentMonth <= 11 -> 1 <= day <= 31 ->
  Spec.iso_date (dateStr currentYear currentMonth day) = true.
Proof.
  intros Hy Hm Hd. unfold dateStr.
  destruct (numeral_four _ (year_numeral currentYear Hy))
    as (y1 & y2 & y3 & y4 & -> & Hy1 & Hy2 & Hy3 & Hy4).
  destruct (numeral_two _ (padded_numeral (currentMonth + 1) ltac:(lia)))
    as (m1 & m2 & -> & Hm1 & Hm2).
  destruct (numeral_two _ (padded_numeral day Hd)) as (d1 & d2 & -> & Hd1 & Hd2).
  cbv [String.append Spec.iso_date].
  rewrite Hy1, Hy2, Hy3, Hy4, Hm1, Hm2, Hd1, Hd2. reflexivity.
Qed.

(** X18 for 5 March 2025 (month 2 counted from 0). *)
Lemma X18_dateStr_is_iso_witness :
  dateStr 2025 2 5 = "2025-03-05" /\ Spec.iso_date (dateStr 2025 2 5) = true.
Proof.
  split; [vm_compute; reflexivity|].
  apply (X18_dateStr_is_iso 2025 2 5); lia.
Defined.
